(** * AdmGPT front end: the chat client, checked against its specification

    A shallow embedding of the React client of the repository:
    - [ChatArea.handleSend] and [ChatArea.handleStop]  (components/ChatArea.tsx),
    - [AuthPrompt.handleSubmit]                         (components/AuthPrompt.tsx),
    - [MessageBubble.render]                            (components/MessageBubble.tsx),
    - [IntegrationsSettings]                            (components/IntegrationsSettings.tsx),
    - [PreferencesModal] and its [ToolPage]             (components/PreferencesModal.tsx),
    - [App.loadConversations], [App.handleTitleUpdate]  (App.tsx),
    - the request shapes of services/api.ts and the records of types.ts.

    React state is threaded explicitly: every handler is a function from the
    component state (and whatever the network answers) to the next state and
    the list of effects it issued.  [setX (prev => f prev)] is the state
    update [f], applied in the order the calls are made.

    A JavaScript string is modelled by the [string] of its UTF-8 encoding;
    white space is what ECMAScript's WhiteSpace and LineTerminator
    productions contain, the no-break space and the other Unicode space
    characters included.  A plain JavaScript object used as a map is a
    [gmap] of its own properties, read with [JS.get], which also finds the
    members that every plain object inherits from Object.prototype. *)

From Stdlib Require Import ZArith Lia.
From stdpp Require Import base option list sorting strings gmap.

(** ** JavaScript built-ins used by the client *)

Module JS.

(** Truthiness of a string: only the empty string is falsy. *)
Definition truthy (s : string) : bool :=
  match s with
  | EmptyString => false
  | String _ _ => true
  end.

(** [a || b] where [a] may be undefined. *)
Definition or_else (a : option string) (b : string) : string :=
  match a with
  | Some s => if truthy s then s else b
  | None => b
  end.

(** A JavaScript string is modelled by its UTF-8 encoding, so that a
    string literal of this file is the string it shows.  [utf8 bytes] is
    the string with the given encoding. *)
Definition utf8 (bytes : list nat) : string :=
  foldr (λ n s, String (Ascii.ascii_of_nat n) s) EmptyString bytes.

(** The encodings of the code points of ECMAScript's WhiteSpace and
    LineTerminator productions, which are what [trim] removes: TAB, LF,
    VT, FF, CR, SP, NBSP (U+00A0), U+1680, U+2000 to U+200A, LS (U+2028),
    PS (U+2029), U+202F, U+205F, U+3000 and ZWNBSP (U+FEFF). *)
Definition whitespace : list string :=
  utf8 <$> [ [9]; [10]; [11]; [12]; [13]; [32];
             [194; 160];
             [225; 154; 128];
             [226; 128; 128]; [226; 128; 129]; [226; 128; 130]; [226; 128; 131];
             [226; 128; 132]; [226; 128; 133]; [226; 128; 134]; [226; 128; 135];
             [226; 128; 136]; [226; 128; 137]; [226; 128; 138];
             [226; 128; 168]; [226; 128; 169]; [226; 128; 175];
             [226; 129; 159];
             [227; 128; 128];
             [239; 187; 191] ].

(** Is [w] one white space character? *)
Definition isSpace (w : string) : bool := existsb (String.eqb w) whitespace.

(** [s.trimStart()]: a white space character is one, two or three bytes
    long. *)
Fixpoint trimStart (s : string) : string :=
  match s with
  | String c1 s1 =>
      if isSpace (String c1 EmptyString) then trimStart s1
      else match s1 with
           | String c2 s2 =>
               if isSpace (String c1 (String c2 EmptyString)) then trimStart s2
               else match s2 with
                    | String c3 s3 =>
                        if isSpace (String c1 (String c2 (String c3 EmptyString)))
                        then trimStart s3 else s
                    | EmptyString => s
                    end
           | EmptyString => s
           end
  | EmptyString => s
  end.

(** A sequence of white space characters (the empty string included). *)
Fixpoint allSpace (s : string) : bool :=
  match s with
  | String c1 s1 =>
      if isSpace (String c1 EmptyString) then allSpace s1
      else match s1 with
           | String c2 s2 =>
               if isSpace (String c1 (String c2 EmptyString)) then allSpace s2
               else match s2 with
                    | String c3 s3 =>
                        if isSpace (String c1 (String c2 (String c3 EmptyString)))
                        then allSpace s3 else false
                    | EmptyString => false
                    end
           | EmptyString => false
           end
  | EmptyString => true
  end.

(** [s.trimEnd()]: the string is cut where what follows is white space
    only.  (No white space encoding begins inside the encoding of another
    character, so the cut falls between two characters.) *)
Fixpoint trimEnd (s : string) : string :=
  match s with
  | String c s' => if allSpace s then EmptyString else String c (trimEnd s')
  | EmptyString => EmptyString
  end.

(** [s.trim()] *)
Definition trim (s : string) : string := trimEnd (trimStart s).

(** Does [s] begin with a white space character? *)
Definition leadingSpace (s : string) : bool :=
  match s with
  | String c1 s1 =>
      isSpace (String c1 EmptyString)
      || match s1 with
         | String c2 s2 =>
             isSpace (String c1 (String c2 EmptyString))
             || match s2 with
                | String c3 _ => isSpace (String c1 (String c2 (String c3 EmptyString)))
                | EmptyString => false
                end
         | EmptyString => false
         end
  | EmptyString => false
  end.

(** [s.endsWith(w)] *)
Definition endsWith (w s : string) : bool :=
  String.prefix (String.rev w) (String.rev s).

(** Does [s] end with a white space character? *)
Definition trailingSpace (s : string) : bool := existsb (λ w, endsWith w s) whitespace.


(** [s.startsWith(p)] *)
Definition startsWith (p s : string) : bool := String.prefix p s.

Fixpoint skip (n : nat) (s : string) : string :=
  match n, s with
  | S n', String _ s' => skip n' s'
  | _, _ => s
  end.

(** [s.replace(pat, rep)] with a string pattern: the first occurrence only. *)
Fixpoint replace (pat rep s : string) : string :=
  if String.prefix pat s then rep +:+ skip (String.length pat) s
  else match s with
       | String c s' => String c (replace pat rep s')
       | EmptyString => EmptyString
       end.

Fixpoint split_go (sep : Ascii.ascii) (cur s : string) : list string :=
  match s with
  | EmptyString => [String.rev cur]
  | String c s' =>
      if decide (c = sep) then String.rev cur :: split_go sep EmptyString s'
      else split_go sep (String c cur) s'
  end.

(** [s.split(sep)] for a one-character separator. *)
Definition split (sep : Ascii.ascii) (s : string) : list string :=
  split_go sep EmptyString s.

Definition newline : Ascii.ascii := Ascii.ascii_of_nat 10.

(** [Array.prototype.sort(cmp)].  ECMAScript asks for a stable sort and
    leaves the algorithm to the engine; for a consistent comparator the
    result is the one of this stable insertion sort. *)
Fixpoint sort_insert {A} (cmp : A → A → Z) (x : A) (l : list A) : list A :=
  match l with
  | [] => [x]
  | y :: l' => if (cmp x y <=? 0)%Z then x :: y :: l' else y :: sort_insert cmp x l'
  end.

Definition sort {A} (cmp : A → A → Z) (l : list A) : list A :=
  foldr (sort_insert cmp) [] l.

(** The names of the members that every plain object inherits from
    Object.prototype. *)
Definition objectPrototype : list string :=
  ["constructor"; "hasOwnProperty"; "isPrototypeOf"; "propertyIsEnumerable";
   "toLocaleString"; "toString"; "valueOf"; "__defineGetter__"; "__defineSetter__";
   "__lookupGetter__"; "__lookupSetter__"; "__proto__"].

(** What [obj[key]] finds in a plain object (an object literal, or an
    object of a parsed JSON text) with the own properties [o]: the own
    property of that name; else the member of Object.prototype of that
    name, which is a function, or Object.prototype itself for [__proto__],
    and so is truthy and has no enumerable own properties; else
    [undefined]. *)
Inductive Property (A : Type) :=
  | own (v : A)
  | inherited
  | undefined.
Global Arguments own {A} v.
Global Arguments inherited {A}.
Global Arguments undefined {A}.

Definition get {A} (o : gmap string A) (key : string) : Property A :=
  match o !! key with
  | Some v => own v
  | None => if bool_decide (key ∈ objectPrototype) then inherited else undefined
  end.

(** A value that the client has read out of a plain object: one of the
    data in it ([data]), or what is found by following [path] from
    Object.prototype ([foreign]), which is not part of the data and which
    this development does not describe further. *)
Inductive Read (A : Type) :=
  | data (v : A)
  | foreign (path : list string).
Global Arguments data {A} v.
Global Arguments foreign {A} path.

(** [obj[key] || fallback], where the properties of [obj] are truthy unless
    [falsy] says otherwise. *)
Definition get_or {A} (falsy : A → bool) (o : gmap string A) (key : string)
    (fallback : A) : Read A :=
  match get o key with
  | own v => data (if falsy v then fallback else v)
  | inherited => foreign [key]
  | undefined => data fallback
  end.

(** [{ ...obj }] for a value read as above: the enumerable own properties. *)
Definition spread {A} (obj : Read (gmap string A)) : gmap string A :=
  match obj with
  | data o => o
  | foreign _ => ∅
  end.

(** [obj[key] || ''] for a value [obj] read as above. *)
Definition field (obj : Read (gmap string string)) (key : string) : Read string :=
  match obj with
  | data o => get_or (λ v, negb (truthy v)) o key EmptyString
  | foreign path => foreign (path ++ [key])
  end.

End JS.

(** ** types.ts *)

Inductive Role :=
  | role_user | role_assistant | role_system | role_thought
  | role_auth_required | role_intent | role_plan | role_error.

Inductive MessageType :=
  | type_message | type_thought | type_auth_required
  | type_intent | type_plan | type_error.

Inductive AuthType := browser | oauth.

Global Instance Role_eq_dec : EqDecision Role.
Proof. solve_decision. Defined.
Global Instance MessageType_eq_dec : EqDecision MessageType.
Proof. solve_decision. Defined.
Global Instance AuthType_eq_dec : EqDecision AuthType.
Proof. solve_decision. Defined.

(** The fields of InteractiveAuthConfig other than [server_name]. *)
Module AuthFields.
Record t := mk {
  type : AuthType;
  instructions : string;
  target_env_var : string;
  auth_url : option string;
  button_text : option string;
  authorize_url : option string;
  token_url : option string;
  scope : option string;
  client_id_env : option string;
  client_secret_env : option string;
  redirect_uri_env : option string
}.
End AuthFields.

Module InteractiveAuthConfig.
Record t := mk {
  server_name : string;
  fields : AuthFields.t
}.
End InteractiveAuthConfig.

Module Message.
Record t := mk {
  role : Role;
  content : string;
  type : option MessageType;
  id : option string;
  timestamp : option string;
  thoughts : option string;
  auth_config : option InteractiveAuthConfig.t
}.

(** The object literal [{ role, content, type }]. *)
Definition make (r : Role) (c : string) (ty : option MessageType) : t :=
  mk r c ty None None None None.
End Message.

Module ConversationSummary.
Record t := mk {
  id : string;
  title : string;
  created_at : string;
  updated_at : option string
}.
End ConversationSummary.

Module MCPServerInfo.
Record InteractiveAuth := mkAuth {
  type : string;
  auth_url : string;
  instructions : string;
  target_env_var : string
}.

Record t := mk {
  name : string;
  required_env : list string;
  interactive_auth : option InteractiveAuth
}.
End MCPServerInfo.

(** ** services/api.ts: the requests the client issues *)

Inductive Request :=
  (** [POST /chat] with a bearer token *)
  | PostChat (bearer conversation_id message : string)
  (** [user.submitMCPAuth]: [POST /user/mcp-auth] *)
  | PostMCPAuth (server_name token token_name : string)
  (** [user.updateUserMCPConfig]: [POST /user/mcp-configs]; the fields of
      the [UserMCPConfig] that is passed, [None] for an absent or undefined
      [tool_context] *)
  | PostMCPConfig (server_name : string) (env_vars : JS.Read (gmap string string))
      (tool_context : option (JS.Read string)).


(** What an awaited call of the axios client does: it resolves with the
    response data, or it throws (a non-2xx status, if the server answered). *)
Inductive Awaited (A : Type) :=
  | Resolves (data : A)
  | Throws (status : option Z).
Global Arguments Resolves {A} data.
Global Arguments Throws {A} status.

(** ** components/AuthPrompt.tsx *)

Module AuthPrompt.

Record Props := mkProps {
  serverName : string;
  authUrl : string;
  instructions : string;
  targetEnvVar : string;
  authType : AuthType;
  buttonText : option string
}.

Record State := mkState {
  token : string;
  isSubmitting : bool;
  isSuccess : bool;
  error : option string
}.

(** [useState] initial values. *)
Definition initial : State := mkState EmptyString false false None.

(** [handleSubmit]: the guard, then one call of [user.submitMCPAuth] whose
    outcome [resp] decides between the [try] and the [catch] branch; the
    [finally] branch clears [isSubmitting]. *)
Definition handleSubmit (p : Props) (resp : Awaited unit) (st : State)
    : State * list Request :=
  if negb (JS.truthy (JS.trim (token st))) then (st, [])
  else
    let req := PostMCPAuth (serverName p) (JS.trim (token st)) (targetEnvVar p) in
    match resp with
    | Resolves _ => (mkState (token st) false true None, [req])
    | Throws _ =>
        (mkState (token st) false (isSuccess st)
           (Some "Failed to save token. Please try again."), [req])
    end.

(** The three views the component returns. *)
Inductive View :=
  | SuccessView (serverName : string)
  | OAuthView (serverName instructions : string) (button : string)
  | TokenForm (serverName instructions authUrl : string)
      (tokenInput : string) (error : option string) (submitDisabled : bool).

Definition render (p : Props) (st : State) : View :=
  if isSuccess st then SuccessView (serverName p)
  else match authType p with
       | oauth =>
           OAuthView (serverName p) (instructions p)
             (JS.or_else (buttonText p) ("Connect to " +:+ serverName p))
       | browser =>
           TokenForm (serverName p) (instructions p) (authUrl p) (token st)
             (error st) (isSubmitting st || negb (JS.truthy (JS.trim (token st))))
       end.

End AuthPrompt.

(** ** components/MessageBubble.tsx *)

Module MessageBubble.

Inductive Bubble :=
  | AuthBubble (props : AuthPrompt.Props)
  | CollapsibleBubble (title content : string) (expanded : bool)
  | ChatBubble (isUser : bool) (content : string).

(** [message.role === r || message.type === ty] *)
Definition tagged (m : Message.t) (r : Role) (ty : MessageType) : bool :=
  bool_decide (Message.role m = r) || bool_decide (Message.type m = Some ty).

Definition render (m : Message.t) : Bubble :=
  let isUser := bool_decide (Message.role m = role_user) in
  let isThought := tagged m role_thought type_thought in
  let isAuth := tagged m role_auth_required type_auth_required in
  let isIntent := tagged m role_intent type_intent in
  let isPlan := tagged m role_plan type_plan in
  let isError := tagged m role_error type_error in
  match isAuth, Message.auth_config m with
  | true, Some cfg =>
      let f := InteractiveAuthConfig.fields cfg in
      AuthBubble
        (AuthPrompt.mkProps (InteractiveAuthConfig.server_name cfg)
           (JS.or_else (AuthFields.auth_url f) EmptyString)
           (AuthFields.instructions f)
           (JS.or_else (Some (AuthFields.target_env_var f)) EmptyString)
           (AuthFields.type f) (AuthFields.button_text f))
  | _, _ =>
      if isThought || isIntent || isPlan || isError then
        CollapsibleBubble
          (if isIntent then "Intent Analysis"
           else if isPlan then "Technical Plan"
           else if isError then "Tool Execution Failed"
           else "Thinking")
          (Message.content m) (isIntent || isPlan || isError)
      else ChatBubble isUser (Message.content m)
  end.

End MessageBubble.

(** ** components/ChatArea.tsx *)

Module ChatArea.

Record Props := mkProps {
  conversationId : option string;
  token : string
}.

Record State := mkState {
  messages : list Message.t;
  input : string;
  isLoading : bool;
  isStreaming : bool;
  (** whether [abortControllerRef.current] holds a controller *)
  abortControllerRef : bool
}.

(** The [auth_config] object of an [auth_required] event: the fields of
    InteractiveAuthConfig, where [server_name] may or may not be given. *)
Record WireAuthConfig := mkWire {
  wire_server_name : option string;
  wire_fields : AuthFields.t
}.

(** The value of [JSON.parse(dataStr)], by [event.type]; [ev_other] is any
    value whose [type] is none of the eight the handler tests for. *)
Inductive SSEEvent :=
  | ev_token (content : string)
  | ev_thought (content : string)
  | ev_question (content : string)
  | ev_auth_required (server_name : string) (auth_config : WireAuthConfig)
  | ev_intent (content : string)
  | ev_plan (content : string)
  | ev_error (content : string)
  | ev_title (content : string)
  | ev_other.

(** What the loop body sees in one element of [chunk.split('\n')]. *)
Inductive Line :=
  (** the line does not start with ['data: '] *)
  | NotData
  (** [dataStr === '[DONE]'] *)
  | Done
  (** [JSON.parse] throws; the inner [catch] logs it *)
  | Unparsable
  | Parsed (event : SSEEvent).

Definition classify (JSON_parse : string → option SSEEvent) (line : string) : Line :=
  if JS.startsWith "data: " line then
    let dataStr := JS.trim (JS.replace "data: " EmptyString line) in
    if bool_decide (dataStr = "[DONE]") then Done
    else match JSON_parse dataStr with
         | Some event => Parsed event
         | None => Unparsable
         end
  else NotData.

(** [decoder.decode(value).split('\n')], every line classified. *)
Definition lines (JSON_parse : string → option SSEEvent) (chunk : string) : list Line :=
  classify JSON_parse <$> JS.split JS.newline chunk.

(** Calls the handler makes besides its own state updates. *)
Inductive Effect :=
  | Fetch (r : Request)
  | OnNewMessage (m : Message.t)
  | OnTitleUpdate (id title : string).

(** The variables the read loop works on: the message list (through
    [setMessages]), the local [aiContent], and the calls made so far. *)
Record Loop := mkLoop {
  msgs : list Message.t;
  aiContent : string;
  calls : list Effect
}.

(** The [setMessages] updater of a [token] event, with the value
    [aiContent] has when the event is handled.  The updater reads the
    variable when React runs it; when that is after further [token] events
    it writes the longer text they have left in [aiContent].  The message
    that holds the narration after the last [token] event of a stream is
    the same either way; the contents given below for the messages of
    earlier runs of tokens are the ones written when each updater runs
    before the next event is handled. *)
Definition onToken (aiContent : string) (prev : list Message.t) : list Message.t :=
  match last prev with
  | Some lastMsg =>
      if bool_decide (Message.role lastMsg = role_user)
         || bool_decide (Message.type lastMsg = Some type_thought)
      then prev ++ [Message.make role_assistant aiContent (Some type_message)]
      else <[length prev - 1 :=
               Message.mk (Message.role lastMsg) aiContent (Some type_message)
                 (Message.id lastMsg) (Message.timestamp lastMsg)
                 (Message.thoughts lastMsg) (Message.auth_config lastMsg)]> prev
  | None => prev ++ [Message.make role_assistant aiContent (Some type_message)]
  end.

(** [{ server_name: event.server_name, ...event.auth_config }] *)
Definition authConfig (server_name : string) (cfg : WireAuthConfig)
    : InteractiveAuthConfig.t :=
  InteractiveAuthConfig.mk
    (default server_name (wire_server_name cfg)) (wire_fields cfg).

Definition push (m : Message.t) (L : Loop) : Loop :=
  mkLoop (msgs L ++ [m]) (aiContent L) (calls L).

(** The [if / else if] chain on [event.type]; the boolean tells whether the
    branch ends in [break]. *)
Definition onEvent (cid : string) (event : SSEEvent) (L : Loop) : Loop * bool :=
  match event with
  | ev_token c =>
      let ai := aiContent L +:+ c in
      (mkLoop (onToken ai (msgs L)) ai (calls L), false)
  | ev_thought c =>
      (push (Message.make role_assistant c (Some type_thought)) L, false)
  | ev_question c =>
      (push (Message.make role_assistant c (Some type_message)) L, false)
  | ev_auth_required sn cfg =>
      (push (Message.mk role_assistant (AuthFields.instructions (wire_fields cfg))
               (Some type_auth_required) None None None
               (Some (authConfig sn cfg))) L, true)
  | ev_intent c =>
      (push (Message.make role_intent c (Some type_intent)) L, false)
  | ev_plan c =>
      (push (Message.make role_plan c (Some type_plan)) L, false)
  | ev_error c =>
      (push (Message.make role_error c (Some type_error)) L, false)
  | ev_title c =>
      (mkLoop (msgs L) (aiContent L) (calls L ++ [OnTitleUpdate cid c]), false)
  | ev_other => (L, false)
  end.

(** One iteration of [for (const line of lines)]. *)
Definition onLine (cid : string) (line : Line) (L : Loop) : Loop * bool :=
  match line with
  | NotData => (L, false)
  | Done => (L, true)
  | Unparsable => (L, false)
  | Parsed event => onEvent cid event L
  end.

(** [for (const line of lines) { ... }]: [break] leaves this loop. *)
Fixpoint forLines (cid : string) (ls : list Line) (L : Loop) : Loop :=
  match ls with
  | [] => L
  | line :: rest =>
      let (L', brk) := onLine cid line L in
      if brk then L' else forLines cid rest L'
  end.

(** [while (true) { read(); if (done) break; ... }] over the chunks the
    reader delivers before it reports [done] or throws. *)
Fixpoint whileRead (cid : string) (chunks : list (list Line)) (L : Loop) : Loop :=
  match chunks with
  | [] => L
  | chunk :: rest => whileRead cid rest (forLines cid chunk L)
  end.

(** How the sequence of [reader.read()] calls ends. *)
Inductive ReadEnd :=
  (** [done] is reported *)
  | end_done
  (** the read rejects with an AbortError: [handleStop] aborted the request *)
  | end_abort
  (** the read rejects with another error *)
  | end_error.

(** What the network does to one [fetch] of [handleSend]. *)
Inductive Network (C : Type) :=
  (** [fetch] rejects with an AbortError *)
  | fetch_abort
  (** [fetch] rejects with another error *)
  | fetch_error
  (** [!response.ok || !response.body] *)
  | response_bad
  (** the body delivers [chunks], then ends *)
  | response_stream (chunks : list C) (fin : ReadEnd).
Global Arguments fetch_abort {C}.
Global Arguments fetch_error {C}.
Global Arguments response_bad {C}.
Global Arguments response_stream {C} chunks fin.

Inductive Thrown := AbortError | OtherError.

Definition apology : Message.t :=
  Message.make role_assistant "Sorry, I encountered an error. Please try again." None.

(** The [try] block after the user message is queued: the final loop
    variables and what, if anything, reaches the outer [catch]. *)
Definition tryBlock (cid : string) (net : Network (list Line)) (L0 : Loop)
    : Loop * option Thrown :=
  match net with
  | fetch_abort => (L0, Some AbortError)
  | fetch_error => (L0, Some OtherError)
  | response_bad => (L0, Some OtherError)
  | response_stream chunks fin =>
      (whileRead cid chunks L0,
       match fin with
       | end_done => None
       | end_abort => Some AbortError
       | end_error => Some OtherError
       end)
  end.

(** The outer [catch]: only an error that is not an AbortError adds a message. *)
Definition catchBlock (thrown : option Thrown) (ms : list Message.t) : list Message.t :=
  match thrown with
  | Some OtherError => ms ++ [apology]
  | Some AbortError => ms
  | None => ms
  end.

(** [handleSend], run to its end with no other handler of the component
    interleaved. *)
Definition handleSend (p : Props) (net : Network (list Line)) (st : State)
    : State * list Effect :=
  match conversationId p with
  | Some cid =>
      if JS.truthy (JS.trim (input st)) && JS.truthy cid then
        let userMsg := Message.make role_user (input st) None in
        let L0 :=
          mkLoop (messages st ++ [userMsg]) EmptyString
            [OnNewMessage userMsg; Fetch (PostChat (token p) cid (input st))] in
        let (L, thrown) := tryBlock cid net L0 in
        (mkState (catchBlock thrown (msgs L)) EmptyString false false false, calls L)
      else (st, [])
  | None => (st, [])
  end.

Definition mapNetwork {C D} (f : C → D) (net : Network C) : Network D :=
  match net with
  | fetch_abort => fetch_abort
  | fetch_error => fetch_error
  | response_bad => response_bad
  | response_stream chunks fin => response_stream (f <$> chunks) fin
  end.

(** [handleSend] on the text chunks of the wire. *)
Definition handleSendWire (JSON_parse : string → option SSEEvent)
    (p : Props) (net : Network string) (st : State) : State * list Effect :=
  handleSend p (mapNetwork (lines JSON_parse) net) st.

(** [handleStop]: the boolean tells whether [abort()] was called. *)
Definition handleStop (st : State) : State * bool :=
  if abortControllerRef st then
    (mkState (messages st) (input st) false false (abortControllerRef st), true)
  else (st, false).

End ChatArea.

(** ** components/IntegrationsSettings.tsx *)

Module IntegrationsSettings.

Inductive Banner := success (text : string) | failure (text : string).

Record State := mkState {
  servers : list MCPServerInfo.t;
  userConfigs : gmap string (gmap string string);
  loading : bool;
  saving : option string;
  message : option Banner;
  visibleFields : gset string
}.

(** [useState] initial values. *)
Definition initial : State := mkState [] ∅ true None None ∅.

(** The effect that runs once on mount; [resp] is what
    [Promise.all([getMCPServers(), getUserMCPConfigs()])] does. *)
Definition fetchData
    (resp : Awaited (list MCPServerInfo.t * gmap string (gmap string string)))
    (st : State) : State :=
  match resp with
  | Resolves (serversData, configsData) =>
      mkState serversData configsData false (saving st) (message st) (visibleFields st)
  | Throws _ =>
      mkState (servers st) (userConfigs st) false (saving st)
        (Some (failure "Failed to load integrations data.")) (visibleFields st)
  end.

(** [{ ...prev, [serverName]: { ...(prev[serverName] || {}), [key]: value } }].
    Computed keys make own properties, whatever their names. *)
Definition handleConfigChange (serverName key value : string) (st : State) : State :=
  mkState (servers st)
    (<[serverName :=
         <[key := value]>
           (JS.spread (JS.get_or (λ _, false) (userConfigs st) serverName ∅))]>
       (userConfigs st))
    (loading st) (saving st) (message st) (visibleFields st).

(** The template string [`${serverName}:${envVar}`]. *)
Definition fieldId (serverName envVar : string) : string :=
  serverName +:+ ":" +:+ envVar.

Definition toggleVisibility (serverName envVar : string) (st : State) : State :=
  let id := fieldId serverName envVar in
  mkState (servers st) (userConfigs st) (loading st) (saving st) (message st)
    (if bool_decide (id ∈ visibleFields st)
     then visibleFields st ∖ {[id]}
     else visibleFields st ∪ {[id]}).

Definition handleSave (serverName : string) (resp : Awaited unit) (st : State)
    : State * list Request :=
  let config := JS.get_or (λ _, false) (userConfigs st) serverName ∅ in
  (mkState (servers st) (userConfigs st) (loading st) None
     (Some match resp with
           | Resolves _ =>
               success ("Configuration for " +:+ serverName +:+ " saved successfully.")
           | Throws _ =>
               failure ("Failed to save configuration for " +:+ serverName +:+ ".")
           end)
     (visibleFields st),
   [PostMCPConfig serverName config None]).

Inductive InputType := text | password.

(** One [<input>] of the settings view. *)
Record Field := mkField {
  fieldServer : string;
  fieldLabel : string;
  fieldType : InputType;
  fieldValue : JS.Read string
}.

(** [userConfigs[server.name]?.[envVar] || ''] *)
Definition configValue (st : State) (serverName envVar : string) : JS.Read string :=
  match JS.get (userConfigs st) serverName with
  | JS.own config => JS.field (JS.data config) envVar
  | JS.inherited => JS.field (JS.foreign [serverName]) envVar
  | JS.undefined => JS.data EmptyString
  end.

Definition renderField (st : State) (serverName envVar : string) : Field :=
  let isVisible := bool_decide (fieldId serverName envVar ∈ visibleFields st) in
  mkField serverName envVar (if isVisible then text else password)
    (configValue st serverName envVar).

(** The inputs the component renders: none while loading, then one for each
    required variable of each server. *)
Definition render (st : State) : list Field :=
  if loading st then []
  else
    s ← servers st;
    renderField st (MCPServerInfo.name s) <$> MCPServerInfo.required_env s.

(** What happens to a mounted view: the answer to the requests of its mount
    effect arrives, or the user types into a field, clicks an eye button or
    clicks a save button, whose request is then answered. *)
Inductive Event :=
  | Loaded (resp : Awaited (list MCPServerInfo.t * gmap string (gmap string string)))
  | Typed (serverName key value : string)
  | EyeClicked (serverName envVar : string)
  | SaveClicked (serverName : string) (resp : Awaited unit).

Definition isEyeClick (e : Event) : bool :=
  match e with
  | EyeClicked _ _ => true
  | _ => false
  end.

Definition step (st : State) (e : Event) : State :=
  match e with
  | Loaded resp => fetchData resp st
  | Typed serverName key value => handleConfigChange serverName key value st
  | EyeClicked serverName envVar => toggleVisibility serverName envVar st
  | SaveClicked serverName resp => (handleSave serverName resp st).1
  end.

(** The view after the events [es], from its mount on. *)
Definition after (es : list Event) : State := foldl step initial es.

End IntegrationsSettings.

(** ** components/PreferencesModal.tsx: the tool page *)

Module ToolPage.

Record Props := mkProps {
  server : MCPServerInfo.t;
  configs : JS.Read (gmap string string);
  toolContext : JS.Read string
}.

Inductive Banner := success (text : string) | failure (text : string).

Record State := mkState {
  envVars : JS.Read (gmap string string);
  context : JS.Read string;
  visibleFields : gset string;
  saving : bool;
  message : option Banner
}.

(** [useState] initial values. *)
Definition initial (p : Props) : State :=
  mkState (configs p) (toolContext p) ∅ false None.

(** The effect on [[configs, toolContext]], run when one of the two has
    changed: it resets the edited values and leaves [visibleFields] alone. *)
Definition effect (p : Props) (st : State) : State :=
  mkState (configs p) (toolContext p) (visibleFields st) (saving st) (message st).

Definition toggleVisibility (envVar : string) (st : State) : State :=
  mkState (envVars st) (context st)
    (if bool_decide (envVar ∈ visibleFields st)
     then visibleFields st ∖ {[envVar]}
     else visibleFields st ∪ {[envVar]})
    (saving st) (message st).

(** [onChange] of a credential input:
    [setEnvVars(prev => ({ ...prev, [envVar]: e.target.value }))]. *)
Definition setEnvVar (envVar value : string) (st : State) : State :=
  mkState (JS.data (<[envVar := value]> (JS.spread (envVars st)))) (context st)
    (visibleFields st) (saving st) (message st).

(** [onChange] of the text area. *)
Definition setContext (value : string) (st : State) : State :=
  mkState (envVars st) (JS.data value) (visibleFields st) (saving st) (message st).

(** [handleSave]; [resp] is what [user.updateUserMCPConfig] does. *)
Definition handleSave (p : Props) (resp : Awaited unit) (st : State)
    : State * list Request :=
  (mkState (envVars st) (context st) (visibleFields st) false
     (Some match resp with
           | Resolves _ => success "Configuration saved successfully."
           | Throws _ => failure "Failed to save configuration."
           end),
   [PostMCPConfig (MCPServerInfo.name (server p)) (envVars st)
      match context st with
      | JS.data EmptyString => None
      | c => Some c
      end]).

(** One credential [<input>] of the page. *)
Record Field := mkField {
  fieldLabel : string;
  fieldType : IntegrationsSettings.InputType;
  fieldValue : JS.Read string
}.

Definition renderField (st : State) (envVar : string) : Field :=
  let isVisible := bool_decide (envVar ∈ visibleFields st) in
  mkField envVar
    (if isVisible then IntegrationsSettings.text else IntegrationsSettings.password)
    (JS.field (envVars st) envVar).

Definition render (p : Props) (st : State) : list Field :=
  renderField st <$> MCPServerInfo.required_env (server p).

End ToolPage.


(** ** App.tsx *)

Module App.

Record State := mkState {
  token : option string;
  userName : string;
  conversations : list ConversationSummary.t;
  currentConversationId : option string;
  messages : list Message.t;
  localStorage : gmap string string
}.

Definition handleLogout (st : State) : State :=
  mkState None EmptyString [] None []
    (delete "userName" (delete "token" (localStorage st))).

Section Sorting.

(** [new Date(s).getTime()]: an integral number of milliseconds since the
    epoch, of magnitude at most 8.64e15, or [None] for NaN. *)
Variable Date_getTime : string → option Z.

(** [new Date(c.updated_at || c.created_at).getTime()] *)
Definition timeOf (c : ConversationSummary.t) : option Z :=
  Date_getTime
    (JS.or_else (ConversationSummary.updated_at c) (ConversationSummary.created_at c)).

(** [!isNaN(time) ? time : 0] *)
Definition valid (c : ConversationSummary.t) : Z :=
  match timeOf c with
  | Some time => time
  | None => 0
  end.

(** The comparator of [data.sort]: [validB - validA].  On the range of
    [getTime] the floating-point difference has the sign of the exact one. *)
Definition compareFn (a b : ConversationSummary.t) : Z := (valid b - valid a)%Z.

(** [loadConversations]; [resp] is what [chat.listConversations()] does. *)
Definition loadConversations (resp : Awaited (list ConversationSummary.t))
    (st : State) : State :=
  match resp with
  | Resolves data =>
      mkState (token st) (userName st) (JS.sort compareFn data)
        (currentConversationId st) (messages st) (localStorage st)
  | Throws status =>
      if bool_decide (status = Some 401%Z) then handleLogout st else st
  end.

End Sorting.

(** The updater of [handleTitleUpdate]:
    [prev.map(c => c.id === id ? { ...c, title: newTitle } : c)]. *)
Definition retitle (id newTitle : string) (prev : list ConversationSummary.t)
    : list ConversationSummary.t :=
  (λ c, if bool_decide (ConversationSummary.id c = id)
        then ConversationSummary.mk (ConversationSummary.id c) newTitle
               (ConversationSummary.created_at c) (ConversationSummary.updated_at c)
        else c) <$> prev.

Definition handleTitleUpdate (id newTitle : string) (st : State) : State :=
  mkState (token st) (userName st) (retitle id newTitle (conversations st))
    (currentConversationId st) (messages st) (localStorage st).

End App.

(** ** components/ChatArea.tsx: the input area *)

Module ChatInput.

(** [handleKeyDown]: Enter without Shift sends; the boolean tells whether
    [preventDefault] was called. *)
Definition handleKeyDown (key : string) (shiftKey : bool)
    (p : ChatArea.Props) (net : ChatArea.Network (list ChatArea.Line))
    (st : ChatArea.State) : ChatArea.State * list ChatArea.Effect * bool :=
  if bool_decide (key = "Enter") && negb shiftKey
  then (ChatArea.handleSend p net st, true)
  else ((st, []), false).

(** [onChange] of the textarea. *)
Definition setInput (value : string) (st : ChatArea.State) : ChatArea.State :=
  ChatArea.mkState (ChatArea.messages st) value (ChatArea.isLoading st)
    (ChatArea.isStreaming st) (ChatArea.abortControllerRef st).

Inductive Button :=
  (** the stop button, shown while streaming *)
  | StopButton
  (** the submit button *)
  | SubmitButton (disabled spinner : bool).

Record View := mkView {
  (** [messages.length === 0]: the welcome screen; otherwise the bubbles *)
  bubbles : option (list MessageBubble.Bubble);
  textareaValue : string;
  textareaDisabled : bool;
  button : Button
}.

Definition render (st : ChatArea.State) : View :=
  mkView
    (match ChatArea.messages st with
     | [] => None
     | ms => Some (MessageBubble.render <$> ms)
     end)
    (ChatArea.input st)
    (ChatArea.isLoading st && negb (ChatArea.isStreaming st))
    (if ChatArea.isStreaming st then StopButton
     else SubmitButton
            (negb (JS.truthy (JS.trim (ChatArea.input st))) || ChatArea.isLoading st)
            (ChatArea.isLoading st)).

End ChatInput.

(** ** services/api.ts: the axios client *)

Module Api.

(** [api.defaults.headers.common['Authorization']] *)
Record Client := mkClient {
  authorization : option string
}.

Definition setAuthToken (token : string) (c : Client) : Client :=
  if JS.truthy token then mkClient (Some ("Bearer " +:+ token))
  else mkClient None.

Inductive Endpoint :=
  (** [auth.login]: [POST /login] *)
  | post_login (user_name : string)
  (** [chat.listConversations]: [GET /conversations] *)
  | get_conversations
  (** [chat.getConversation]: [GET /conversations/${id}] *)
  | get_conversation (id : string)
  (** [chat.deleteConversation]: [DELETE /conversations/${id}] *)
  | delete_conversation (id : string)
  (** [chat.start]: [POST /chat/start] *)
  | post_chat_start
  (** [user.getPreferences]: [GET /user/preferences] *)
  | get_preferences
  (** [user.updatePreferences]: [PUT /user/preferences] *)
  | put_preferences (model fontFamily fontSize : string).

(** A request as it leaves the client: the endpoint and the default
    Authorization header at that moment. *)
Record Call := mkCall {
  header : option string;
  endpoint : Endpoint
}.

Definition call (c : Client) (e : Endpoint) : Call := mkCall (authorization c) e.

End Api.

(** ** components/Login.tsx *)

Module Login.

Record TokenResponse := mkToken {
  access_token : string;
  token_type : string;
  user_name : string
}.

Record State := mkState {
  userName : string;
  loading : bool;
  error : string
}.

Definition initial : State := mkState EmptyString false EmptyString.

Record Outcome := mkOutcome {
  state : State;
  client : Api.Client;
  calls : list Api.Call;
  (** the arguments of [onLogin], when it is called *)
  onLogin : option (string * string)
}.

(** [handleSubmit]; [resp] is what [auth.login(userName)] does. *)
Definition handleSubmit (resp : Awaited TokenResponse) (c : Api.Client) (st : State)
    : Outcome :=
  let sent := [Api.call c (Api.post_login (userName st))] in
  match resp with
  | Resolves data =>
      mkOutcome (mkState (userName st) false EmptyString)
        (Api.setAuthToken (access_token data) c) sent
        (Some (access_token data, user_name data))
  | Throws _ =>
      mkOutcome (mkState (userName st) false "Login failed. Please try again.")
        c sent None
  end.

End Login.

(** ** App.tsx: conversation history *)

Module History.

(** The [role] of a stored message: one of the roles of [Message], or
    ['tool']. *)
Inductive RawRole :=
  | raw (r : Role)
  | raw_tool.

Global Instance RawRole_eq_dec : EqDecision RawRole.
Proof. solve_decision. Defined.

(** An element of [detail.messages]: [content] may be missing or null, and
    [thoughts] is [None] unless it is an array. *)
Record RawMessage := mkRaw {
  role : RawRole;
  content : option string;
  thoughts : option (list string)
}.

(** The body of [detail.messages.forEach]: what one stored message pushes
    onto [formattedMessages]. *)
Definition formatMessage (m : RawMessage) : list Message.t :=
  (match thoughts m with
   | Some (t :: ts) =>
       [Message.make role_assistant (String.concat (String JS.newline EmptyString) (t :: ts))
          (Some type_thought)]
   | _ => []
   end)
  ++
  (if negb (JS.truthy (default EmptyString (content m)))
      && bool_decide (role m = raw role_assistant)
   then []
   else match role m with
        | raw_tool =>
            [Message.make role_assistant
               (JS.or_else (content m) "Tool executed successfully.")
               (Some type_thought)]
        | raw role_intent =>
            [Message.make role_intent (JS.or_else (content m) EmptyString)
               (Some type_intent)]
        | raw role_plan =>
            [Message.make role_plan (JS.or_else (content m) EmptyString)
               (Some type_plan)]
        | raw role_error =>
            [Message.make role_error (JS.or_else (content m) EmptyString)
               (Some type_error)]
        | raw r =>
            [Message.make r (JS.or_else (content m) EmptyString) (Some type_message)]
        end).

Definition formatMessages (ms : list RawMessage) : list Message.t :=
  ms ≫= formatMessage.

End History.

(** ** App.tsx: the whole component *)

Module AppShell.

Record UserPreferences := mkPrefs {
  model : string;
  fontFamily : string;
  fontSize : string
}.

(** The state of [App]: the part modelled by [App.State] and the rest. *)
Record State := mkState {
  app : App.State;
  isLoadingHistory : bool;
  isSettingsOpen : bool;
  preferences : UserPreferences
}.

(** The [useState] initial values, read from the browser's local storage. *)
Definition initial (storage : gmap string string) : State :=
  mkState
    (App.mkState (storage !! "token") (JS.or_else (storage !! "userName") EmptyString)
       [] None [] storage)
    false false (mkPrefs "gpt-4o" "Inter" "Medium").

(** [if (!token) return <Login ... />] *)
Definition showsLogin (st : State) : bool :=
  negb (JS.truthy (default EmptyString (App.token (app st)))).

Definition withApp (f : App.State → App.State) (st : State) : State :=
  mkState (f (app st)) (isLoadingHistory st) (isSettingsOpen st) (preferences st).

Definition handleLogin (newToken name : string) (st : State) : State :=
  withApp (λ a,
    App.mkState (Some newToken) name [] None []
      (<["userName" := name]> (<["token" := newToken]> (App.localStorage a)))) st.

Definition handleLogout (st : State) : State := withApp App.handleLogout st.

Definition handleSelectConversation (id : string) (st : State) : State :=
  withApp (λ a,
    App.mkState (App.token a) (App.userName a) (App.conversations a) (Some id)
      (App.messages a) (App.localStorage a)) st.

Definition setMessages (ms : list Message.t) (a : App.State) : App.State :=
  App.mkState (App.token a) (App.userName a) (App.conversations a)
    (App.currentConversationId a) ms (App.localStorage a).

(** [loadConversationHistory(id)]; [resp] is what [chat.getConversation(id)]
    does, reduced to the [messages] of the detail it returns. *)
Definition loadConversationHistory (id : string)
    (resp : Awaited (list History.RawMessage)) (st : State)
    : State * list Api.Endpoint :=
  (mkState
     (match resp with
      | Resolves raws => setMessages (History.formatMessages raws) (app st)
      | Throws _ => app st
      end)
     false (isSettingsOpen st) (preferences st),
   [Api.get_conversation id]).

(** The effect that runs when [currentConversationId] has changed. *)
Definition onCurrentConversationChange
    (resp : Awaited (list History.RawMessage)) (st : State)
    : State * list Api.Endpoint :=
  match App.currentConversationId (app st) with
  | Some id =>
      if JS.truthy id then loadConversationHistory id resp st
      else (withApp (setMessages []) st, [])
  | None => (withApp (setMessages []) st, [])
  end.

(** [handleDeleteConversation(id)]; [confirmed] is the answer to
    [confirm(...)], [resp] what [chat.deleteConversation(id)] does. *)
Definition handleDeleteConversation (id : string) (confirmed : bool)
    (resp : Awaited unit) (st : State) : State * list Api.Endpoint :=
  if negb confirmed then (st, [])
  else
    (match resp with
     | Resolves _ =>
         withApp (λ a,
           let kept :=
             filter (λ c, ConversationSummary.id c ≠ id) (App.conversations a) in
           if bool_decide (App.currentConversationId a = Some id)
           then App.mkState (App.token a) (App.userName a) kept None []
                  (App.localStorage a)
           else App.mkState (App.token a) (App.userName a) kept
                  (App.currentConversationId a) (App.messages a)
                  (App.localStorage a)) st
     | Throws _ => st
     end,
     [Api.delete_conversation id]).

(** [loadPreferences]; [resp] is what [user.getPreferences()] does. *)
Definition loadPreferences (resp : Awaited UserPreferences) (st : State) : State :=
  match resp with
  | Resolves prefs => mkState (app st) (isLoadingHistory st) (isSettingsOpen st) prefs
  | Throws _ => st
  end.

(** The [onSave] and [onClose] props given to the preferences modal. *)
Definition onSave (model fontFamily fontSize : string) (st : State) : State :=
  mkState (app st) (isLoadingHistory st) (isSettingsOpen st)
    (mkPrefs model fontFamily fontSize).

Definition onClose (st : State) : State :=
  mkState (app st) (isLoadingHistory st) false (preferences st).

(** What [applyPreferences] writes: [document.body.style.fontFamily] and
    [document.documentElement.style.fontSize]. *)
Record Style := mkStyle {
  bodyFontFamily : string;
  rootFontSize : string
}.

Definition sizeMap : gmap string string :=
  list_to_map
    [("Extra Small", "12px"); ("Small", "14px"); ("Medium", "16px");
     ("Large", "18px"); ("Extra Large", "20px")].

Definition applyPreferences (prefs : UserPreferences) : Style :=
  mkStyle
    (if bool_decide (fontFamily prefs = "JetBrains Mono")
     then "'JetBrains Mono', monospace"
     else "'" +:+ fontFamily prefs +:+ "', system-ui, sans-serif")
    (JS.or_else (sizeMap !! fontSize prefs) "16px").

(** What occupies the main area. *)
Inductive Main :=
  | StartScreen
  | LoadingConversation
  | Chat (conversationId token : string) (initialMessages : list Message.t).

Definition main (st : State) : Main :=
  match App.currentConversationId (app st) with
  | Some id =>
      if JS.truthy id then
        if isLoadingHistory st then LoadingConversation
        else Chat id (default EmptyString (App.token (app st))) (App.messages (app st))
      else StartScreen
  | None => StartScreen
  end.

End AppShell.

(** ** components/Sidebar.tsx *)

Module Sidebar.

Record Item := mkItem {
  itemId : string;
  itemTitle : string;
  active : bool
}.

(** The conversation list, with [currentId = currentConversationId || undefined]. *)
Definition items (a : App.State) : list Item :=
  (λ conv,
     mkItem (ConversationSummary.id conv) (ConversationSummary.title conv)
       (match App.currentConversationId a with
        | Some cur =>
            JS.truthy cur && bool_decide (ConversationSummary.id conv = cur)
        | None => false
        end))
  <$> App.conversations a.

End Sidebar.

(** ** A browser session: the axios client and the App together *)

Module Session.

Record t := mk {
  client : Api.Client;
  shell : AppShell.State;
  (** the requests sent so far through the axios client, oldest first *)
  sent : list Api.Call
}.

(** The effect of [App] on [token]: when there is a token, install it in
    the client, then load the conversations and the preferences. *)
Definition tokenEffect (Date_getTime : string → option Z)
    (respList : Awaited (list ConversationSummary.t))
    (respPrefs : Awaited AppShell.UserPreferences) (s : t) : t :=
  match App.token (AppShell.app (shell s)) with
  | Some token =>
      if JS.truthy token then
        let c := Api.setAuthToken token (client s) in
        mk c
          (AppShell.loadPreferences respPrefs
             (AppShell.withApp (App.loadConversations Date_getTime respList) (shell s)))
          (sent s ++ [Api.call c Api.get_conversations; Api.call c Api.get_preferences])
      else s
  | None => s
  end.

(** Opening the page: the state comes from local storage, the client has
    no Authorization header yet, and the effect on [token] runs. *)
Definition start (Date_getTime : string → option Z)
    (storage : gmap string string)
    (respList : Awaited (list ConversationSummary.t))
    (respPrefs : Awaited AppShell.UserPreferences) : t :=
  tokenEffect Date_getTime respList respPrefs
    (mk (Api.mkClient None) (AppShell.initial storage) []).

(** Submitting the login form with [userName] typed in; on success
    [onLogin] is [handleLogin], and the effect on [token] runs. *)
Definition login (Date_getTime : string → option Z) (userName : string)
    (resp : Awaited Login.TokenResponse)
    (respList : Awaited (list ConversationSummary.t))
    (respPrefs : Awaited AppShell.UserPreferences) (s : t) : t :=
  let out := Login.handleSubmit resp (client s) (Login.mkState userName false EmptyString) in
  match Login.onLogin out with
  | Some (token, name) =>
      tokenEffect Date_getTime respList respPrefs
        (mk (Login.client out) (AppShell.handleLogin token name (shell s))
           (sent s ++ Login.calls out))
  | None => mk (Login.client out) (shell s) (sent s ++ Login.calls out)
  end.

Definition logout (s : t) : t :=
  mk (client s) (AppShell.handleLogout (shell s)) (sent s).

End Session.

(** ** components/PreferencesModal.tsx *)

Module PreferencesModal.

(** The option lists, as (id, name); a [<select>] offers the ids as values. *)
Definition MODELS : list (string * string) :=
  [("gpt-4o", "GPT-4o"); ("gpt-3.5-turbo", "GPT-3.5 Turbo");
   ("claude-3-opus", "Claude 3 Opus"); ("claude-3-sonnet", "Claude 3 Sonnet")].

Definition FONTS : list (string * string) :=
  [("Inter", "Inter (Default)"); ("Poppins", "Poppins"); ("Outfit", "Outfit");
   ("Source Sans 3", "Source Sans 3"); ("DM Sans", "DM Sans"); ("Nunito", "Nunito");
   ("Roboto", "Roboto"); ("Lato", "Lato"); ("JetBrains Mono", "JetBrains Mono");
   ("Georgia", "Georgia (Serif)")].

Definition SIZES : list (string * string) :=
  [("text-xs", "Extra Small"); ("text-sm", "Small"); ("text-base", "Medium (Default)");
   ("text-lg", "Large"); ("text-xl", "Extra Large")].

(** *** GeneralPage *)

Record GeneralState := mkGeneral {
  model : string;
  fontFamily : string;
  fontSize : string;
  saving : bool
}.

Definition generalInitial (currentModel currentFontFamily currentFontSize : string)
    : GeneralState :=
  mkGeneral currentModel currentFontFamily currentFontSize false.

Definition setModel (v : string) (st : GeneralState) : GeneralState :=
  mkGeneral v (fontFamily st) (fontSize st) (saving st).

Definition setFontFamily (v : string) (st : GeneralState) : GeneralState :=
  mkGeneral (model st) v (fontSize st) (saving st).

Definition setFontSize (v : string) (st : GeneralState) : GeneralState :=
  mkGeneral (model st) (fontFamily st) v (saving st).

(** [handleSave] of the general page, with the [onSave] and [onClose] that
    [App] passes in; [resp] is what [user.updatePreferences] does. *)
Definition handleSave (resp : Awaited unit) (st : GeneralState)
    (shell : AppShell.State) : GeneralState * AppShell.State * list Api.Endpoint :=
  (mkGeneral (model st) (fontFamily st) (fontSize st) false,
   match resp with
   | Resolves _ =>
       AppShell.onClose
         (AppShell.onSave (model st) (fontFamily st) (fontSize st) shell)
   | Throws _ => shell
   end,
   [Api.put_preferences (model st) (fontFamily st) (fontSize st)]).

(** *** The modal *)

Record State := mkState {
  activePage : string;
  servers : list MCPServerInfo.t;
  userConfigs : gmap string (gmap string string);
  toolContexts : gmap string string;
  loading : bool
}.

Definition initial : State := mkState "general" [] ∅ ∅ true.

(** The effect that runs when the modal is opened; [resp] is what the three
    requests of [Promise.all] do together. *)
Definition onOpen
    (resp : Awaited (list MCPServerInfo.t * gmap string (gmap string string)
                     * gmap string string))
    (st : State) : State :=
  match resp with
  | Resolves (serversData, configsData, contextsData) =>
      mkState "general" serversData configsData contextsData false
  | Throws _ =>
      mkState "general" (servers st) (userConfigs st) (toolContexts st) false
  end.

(** The ids of [navItems]. *)
Definition navItems (st : State) : list string :=
  "general" :: (MCPServerInfo.name <$> servers st).

Definition setActivePage (id : string) (st : State) : State :=
  mkState id (servers st) (userConfigs st) (toolContexts st) (loading st).

Inductive Page :=
  | Spinner
  | GeneralPage (currentModel currentFontFamily currentFontSize : string)
  | ToolPage (props : ToolPage.Props)
  | ServerNotFound.

(** The page content of an open modal. *)
Definition page (prefs : AppShell.UserPreferences) (st : State) : Page :=
  if loading st then Spinner
  else if bool_decide (activePage st = "general") then
    GeneralPage
      (JS.or_else (Some (AppShell.model prefs)) "gpt-4o")
      (JS.or_else (Some (AppShell.fontFamily prefs)) "Inter")
      (JS.or_else (Some (AppShell.fontSize prefs)) "Medium")
  else
    match list_find (λ s, MCPServerInfo.name s = activePage st) (servers st) with
    | None => ServerNotFound
    | Some (_, server) =>
        ToolPage
          (ToolPage.mkProps server
             (JS.get_or (λ _, false) (userConfigs st) (MCPServerInfo.name server) ∅)
             (JS.get_or (λ v, negb (JS.truthy v)) (toolContexts st)
                (MCPServerInfo.name server) EmptyString))
    end.

(** *** The open modal with the tool page it shows

    React keeps the state of the [ToolPage] component for as long as the
    page content is a [ToolPage] element, also when the element is one for
    another server; then the props have changed and the component's effect
    runs.  The component is mounted anew when the content was something
    else before. *)

Record View := mkView {
  modal : State;
  tool : option ToolPage.State
}.

(** The props of the tool page, when the content is one. *)
Definition toolProps (prefs : AppShell.UserPreferences) (st : State)
    : option ToolPage.Props :=
  match page prefs st with
  | ToolPage props => Some props
  | _ => None
  end.

(** The modal once the answer to the requests of its opening has arrived:
    the general page.  [before] is the state the modal had when it was
    opened, [initial] the first time; a modal that is not open renders
    nothing, so no tool page is mounted. *)
Definition opened (before : State)
    (resp : Awaited (list MCPServerInfo.t * gmap string (gmap string string)
                     * gmap string string)) : View :=
  mkView (onOpen resp before) None.

(** A click on the navigation item [id]. *)
Definition navigate (prefs : AppShell.UserPreferences) (id : string) (v : View) : View :=
  if bool_decide (id = activePage (modal v)) then v
  else
    let modal' := setActivePage id (modal v) in
    mkView modal'
      match toolProps prefs modal', tool v with
      | Some props, Some st => Some (ToolPage.effect props st)
      | Some props, None => Some (ToolPage.initial props)
      | None, _ => None
      end.

(** [App] renders the open modal again.  The props of the tool page are
    computed anew; [userConfigs[server.name] || {}] is another object than
    before when it is the literal, and then the effect of the tool page
    runs. *)
Definition rerender (prefs : AppShell.UserPreferences) (v : View) : View :=
  match toolProps prefs (modal v), tool v with
  | Some props, Some st =>
      match JS.get (userConfigs (modal v)) (MCPServerInfo.name (ToolPage.server props)) with
      | JS.undefined => mkView (modal v) (Some (ToolPage.effect props st))
      | _ => v
      end
  | _, _ => v
  end.

(** What happens to the open modal: the user clicks a navigation item,
    types into a credential input or into the text area, clicks an eye
    button or the save button (whose request is then answered), or [App]
    renders the modal again. *)
Inductive Event :=
  | NavClicked (id : string)
  | Typed (envVar value : string)
  | ContextTyped (value : string)
  | EyeClicked (envVar : string)
  | SaveClicked (resp : Awaited unit)
  | Rerendered.

Definition isEyeClick (e : Event) : bool :=
  match e with
  | EyeClicked _ => true
  | _ => false
  end.

(** A handler of the mounted tool page. *)
Definition onTool (f : ToolPage.State → ToolPage.State) (v : View) : View :=
  match tool v with
  | Some st => mkView (modal v) (Some (f st))
  | None => v
  end.

Definition step (prefs : AppShell.UserPreferences) (v : View) (e : Event) : View :=
  match e with
  | NavClicked id => navigate prefs id v
  | Typed envVar value => onTool (ToolPage.setEnvVar envVar value) v
  | ContextTyped value => onTool (ToolPage.setContext value) v
  | EyeClicked envVar => onTool (ToolPage.toggleVisibility envVar) v
  | SaveClicked resp =>
      match toolProps prefs (modal v) with
      | Some props => onTool (λ st, (ToolPage.handleSave props resp st).1) v
      | None => v
      end
  | Rerendered => rerender prefs v
  end.

(** The credential inputs on screen. *)
Definition fields (prefs : AppShell.UserPreferences) (v : View) : list ToolPage.Field :=
  match toolProps prefs (modal v), tool v with
  | Some props, Some st => ToolPage.render props st
  | _, _ => []
  end.

End PreferencesModal.

(** ** components/ThemeToggle.tsx *)

Module ThemeToggle.

(** What the component reads and writes outside its own state. *)
Record Browser := mkBrowser {
  (** [document.documentElement.classList.contains('dark')] *)
  darkClass : bool;
  localStorage : gmap string string
}.

(** The initial value of [isDark]. *)
Definition initialIsDark (b : Browser) : bool :=
  darkClass b || bool_decide (localStorage b !! "theme" = Some "dark").

(** The effect on [isDark]. *)
Definition effect (isDark : bool) (b : Browser) : Browser :=
  if isDark then mkBrowser true (<["theme" := "dark"]> (localStorage b))
  else mkBrowser false (<["theme" := "light"]> (localStorage b)).

(** Mounting the component, then any number of clicks on the button; the
    effect runs after the mount and after every click. *)
Fixpoint clicks (n : nat) (isDark : bool) (b : Browser) : bool * Browser :=
  match n with
  | O => (isDark, effect isDark b)
  | S n' => clicks n' (negb isDark) (effect isDark b)
  end.

Definition mountAndClick (n : nat) (b : Browser) : bool * Browser :=
  clicks n (initialIsDark b) b.

End ThemeToggle.

(** ** components/AuthPrompt.tsx: the OAuth popup *)

Module OAuthPopup.

Record State := mkState {
  prompt : AuthPrompt.State;
  (** the [message] listeners registered and not yet removed *)
  listeners : nat
}.

Inductive Event :=
  (** a click on the connect button: [handleOAuthClick] *)
  | Click
  (** a [message] event on the window *)
  | WindowMessage (origin data : string)
  (** a tick of one of the one-second timers that finds the popup closed:
      the timer stops and removes its listener *)
  | PopupClosed
  (** typing in the token field *)
  | TypeToken (value : string)
  (** [handleSubmit] with what the request does *)
  | Submit (resp : Awaited unit).

Definition succeed (st : AuthPrompt.State) : AuthPrompt.State :=
  AuthPrompt.mkState (AuthPrompt.token st) (AuthPrompt.isSubmitting st) true
    (AuthPrompt.error st).

Definition step (p : AuthPrompt.Props) (e : Event) (st : State) : State :=
  match e with
  | Click => mkState (prompt st) (S (listeners st))
  | WindowMessage _ data =>
      match listeners st with
      | O => st
      | S _ =>
          if bool_decide (data = "oauth-success") then mkState (succeed (prompt st)) 0
          else st
      end
  | PopupClosed => mkState (prompt st) (pred (listeners st))
  | TypeToken value =>
      mkState
        (AuthPrompt.mkState value (AuthPrompt.isSubmitting (prompt st))
           (AuthPrompt.isSuccess (prompt st)) (AuthPrompt.error (prompt st)))
        (listeners st)
  | Submit resp => mkState (AuthPrompt.handleSubmit p resp (prompt st)).1 (listeners st)
  end.

Definition run (p : AuthPrompt.Props) (events : list Event) (st : State) : State :=
  foldl (λ s e, step p e s) st events.

End OAuthPopup.

(** * Vocabulary and sample data of the statements *)

(** Newest first, on the sort key of [loadConversations]. *)
Definition newer_first (Date_getTime : string → option Z)
    (a b : ConversationSummary.t) : Prop :=
  (App.valid Date_getTime b ≤ App.valid Date_getTime a)%Z.

(** The values of [new Date(s).getTime()] on two strings; every other
    string of the example below is not a date. *)
Definition sample_getTime (s : string) : option Z :=
  if bool_decide (s = "1969-12-31T23:59:59.000Z") then Some (-1000)%Z
  else if bool_decide (s = "2024-05-01T00:00:00.000Z") then Some 1714521600000%Z
  else None.

Definition conv_1969 : ConversationSummary.t :=
  ConversationSummary.mk "c1" "Moon landing notes" "1969-12-31T23:59:59.000Z" None.

Definition conv_undated : ConversationSummary.t :=
  ConversationSummary.mk "c2" "Imported chat" "not a date" None.

Definition conv_2024 : ConversationSummary.t :=
  ConversationSummary.mk "c3" "Ticket #5" "2024-04-30T09:00:00.000Z"
    (Some "2024-05-01T00:00:00.000Z").

Definition app0 : App.State := App.mkState (Some "jwt") "ada" [] None [] ∅.

(** A string of white space only (the empty string included). *)
Definition blank (s : string) : bool := JS.allSpace s.

(** The no-break space U+00A0. *)
Definition nbsp : string := JS.utf8 [194; 160].

Definition chat0 : ChatArea.State :=
  ChatArea.mkState [Message.make role_assistant "Hello! How can I help?" None]
    (" " +:+ nbsp +:+ JS.utf8 [9]) false false false.

Definition props0 : ChatArea.Props := ChatArea.mkProps (Some "conv-1") "jwt".

(** The user message [handleSend] queues, and the loop variables before the
    request is made. *)
Definition userMsg (st : ChatArea.State) : Message.t :=
  Message.make role_user (ChatArea.input st) None.

Definition loop0 (p : ChatArea.Props) (cid : string) (st : ChatArea.State)
    : ChatArea.Loop :=
  ChatArea.mkLoop (ChatArea.messages st ++ [userMsg st]) EmptyString
    [ChatArea.OnNewMessage (userMsg st);
     ChatArea.Fetch (PostChat (ChatArea.token p) cid (ChatArea.input st))].

Definition chatHi : ChatArea.State :=
  ChatArea.mkState [Message.make role_assistant "Hello! How can I help?" None]
    "What is 2+2?" false false false.

Definition chunksHi : list (list ChatArea.Line) :=
  [[ChatArea.Parsed (ChatArea.ev_thought "Adding the numbers.")];
   [ChatArea.Parsed (ChatArea.ev_token "4")]].

(** The narration fragments, concatenated in the order they arrive. *)
Definition concatenation (fragments : list string) : string :=
  foldr String.append EmptyString fragments.

Definition narration (content : string) : Message.t :=
  Message.make role_assistant content (Some type_message).

Definition tokenLines (fragments : list string) : list ChatArea.Line :=
  (λ c, ChatArea.Parsed (ChatArea.ev_token c)) <$> fragments.

(** The fragments of the token events that came after the last event of
    another kind. *)
Fixpoint sinceLastNonToken (events : list ChatArea.SSEEvent) (acc : list string)
    : list string :=
  match events with
  | [] => acc
  | ChatArea.ev_token c :: rest => sinceLastNonToken rest (acc ++ [c])
  | _ :: rest => sinceLastNonToken rest []
  end.

Definition hello : Message.t :=
  Message.make role_assistant "Hello! How can I help?" None.

Definition thought (content : string) : Message.t :=
  Message.make role_assistant content (Some type_thought).

(** One event in each chunk. *)
Definition oneByOne (events : list ChatArea.SSEEvent) : list (list ChatArea.Line) :=
  (λ e, [ChatArea.Parsed e]) <$> events.

Definition turnLookup : list ChatArea.SSEEvent :=
  [ChatArea.ev_token "2+2 is 4.";
   ChatArea.ev_thought "Ticket #5 found.";
   ChatArea.ev_token " Ticket #5 is open."].

Definition githubChallenge : ChatArea.WireAuthConfig :=
  ChatArea.mkWire None
    (AuthFields.mk browser "Create a token and paste it below." "GITHUB_TOKEN"
       (Some "https://github.com/settings/tokens") None None None None None None None).

Definition githubPrompt : Message.t :=
  Message.mk role_assistant "Create a token and paste it below."
    (Some type_auth_required) None None None
    (Some (InteractiveAuthConfig.mk "github" (ChatArea.wire_fields githubChallenge))).

(** No white space at either end. *)
Definition tight (s : string) : bool :=
  negb (JS.leadingSpace s) && negb (JS.trailingSpace s).


(** The first byte of a white space character. *)
Definition lead (b : Ascii.ascii) : bool :=
  existsb (λ w, match w with String c _ => Ascii.eqb c b | EmptyString => false end)
    JS.whitespace.

Definition saveFailed : string := "Failed to save token. Please try again.".

Definition githubProps : AuthPrompt.Props :=
  AuthPrompt.mkProps "github" "https://github.com/settings/tokens"
    "Create a token and paste it below." "GITHUB_TOKEN" browser None.

Definition pasted (token : string) : AuthPrompt.State :=
  AuthPrompt.mkState token false false None.

Definition github : MCPServerInfo.t := MCPServerInfo.mk "github" ["GITHUB_TOKEN"] None.

Definition savedConfigs : gmap string (gmap string string) :=
  {[ "github" := {[ "GITHUB_TOKEN" := "ghp_saved_secret" ]} ]}.


(** A line that the loop body does something with. *)
Definition significant (l : ChatArea.Line) : bool :=
  match l with
  | ChatArea.NotData | ChatArea.Unparsable => false
  | ChatArea.Done | ChatArea.Parsed _ => true
  end.

(** A line whose handling ends in [break]. *)
Definition breaks (l : ChatArea.Line) : bool :=
  match l with
  | ChatArea.Done | ChatArea.Parsed (ChatArea.ev_auth_required _ _) => true
  | _ => false
  end.

Definition isToken (l : ChatArea.Line) : bool :=
  match l with
  | ChatArea.Parsed (ChatArea.ev_token _) => true
  | _ => false
  end.

(** A line whose event appends a message of its own to the transcript. *)
Definition addsMessage (l : ChatArea.Line) : bool :=
  match l with
  | ChatArea.Parsed (ChatArea.ev_thought _ | ChatArea.ev_question _
                     | ChatArea.ev_auth_required _ _ | ChatArea.ev_intent _
                     | ChatArea.ev_plan _ | ChatArea.ev_error _) => true
  | _ => false
  end.

(** After a token: no token follows an event that appends a message. *)
Fixpoint runEnds (ls : list ChatArea.Line) : bool :=
  match ls with
  | [] => true
  | l :: ls' => if addsMessage l then forallb (λ l', negb (isToken l')) ls' else runEnds ls'
  end.

(** The token events among the lines form one run: between two of them
    there is no event that appends a message. *)
Fixpoint oneRun (ls : list ChatArea.Line) : bool :=
  match ls with
  | [] => true
  | l :: ls' => if isToken l then runEnds ls' else oneRun ls'
  end.

(** The contents of the [title] events among some lines, in order. *)
Definition titlesOf (ls : list ChatArea.Line) : list string :=
  ls ≫= λ l, match l with
             | ChatArea.Parsed (ChatArea.ev_title c) => [c]
             | _ => []
             end.

(** [App] renders [<ChatArea onTitleUpdate={handleTitleUpdate} />] and
    passes no [onNewMessage]: what a call of the chat area does to [App]. *)
Definition deliver (a : App.State) (e : ChatArea.Effect) : App.State :=
  match e with
  | ChatArea.OnTitleUpdate id title => App.handleTitleUpdate id title a
  | ChatArea.OnNewMessage _ | ChatArea.Fetch _ => a
  end.

(** Three token events with a blank line, an empty chunk and a data line
    that does not parse between them. *)
Definition chunksNoisy : list (list ChatArea.Line) :=
  [[ChatArea.NotData; ChatArea.Parsed (ChatArea.ev_token "2+2 ")];
   [];
   [ChatArea.Parsed (ChatArea.ev_token "is "); ChatArea.Unparsable;
    ChatArea.Parsed (ChatArea.ev_token "4.")]].


(** What every message of a reloaded conversation looks like: it has a
    type and carries nothing but role, content and type; a thought has
    role assistant; an ordinary assistant message is not empty. *)
Definition reloaded (m : Message.t) : Prop :=
  is_Some (Message.type m)
  ∧ Message.auth_config m = None
  ∧ Message.id m = None ∧ Message.timestamp m = None ∧ Message.thoughts m = None
  ∧ (Message.type m = Some type_thought → Message.role m = role_assistant)
  ∧ (Message.role m = role_assistant → Message.type m = Some type_message →
     Message.content m ≠ EmptyString).

Definition colon : Ascii.ascii :=
  match ":" with
  | String c _ => c
  | EmptyString => Ascii.zero
  end.

(** A name without a colon. *)
Fixpoint colonFree (s : string) : bool :=
  match s with
  | EmptyString => true
  | String c s' => negb (bool_decide (c = colon)) && colonFree s'
  end.

(** A string without a line break. *)
Fixpoint oneLine (s : string) : bool :=
  match s with
  | EmptyString => true
  | String c s' => negb (bool_decide (c = JS.newline)) && oneLine s'
  end.

(** What [JSON.parse] does on a few texts: a number and an empty object
    parse to values without a [type]; the text [null] parses to null, on
    which reading [type] throws, and the other texts used below are not
    JSON; both end in the inner [catch]. *)
Definition sample_parse (s : string) : option ChatArea.SSEEvent :=
  if bool_decide (s = "4") then Some ChatArea.ev_other
  else if bool_decide (s = "{}") then Some ChatArea.ev_other
  else None.

(** * Properties *)

(** ** The stable sort *)

Section sort_facts.
Context {A : Type} (cmp : A → A → Z) (R : relation A).
Hypothesis cmp_le : ∀ x y, (cmp x y ≤ 0)%Z → R x y.
Hypothesis cmp_gt : ∀ x y, (0 < cmp x y)%Z → R y x.
Hypothesis R_trans : Transitive R.

Lemma sort_insert_perm x l : JS.sort_insert cmp x l ≡ₚ x :: l.
Proof.
  induction l as [|y l IH]; simpl; [done|].
  destruct (cmp x y <=? 0)%Z; [done|].
  rewrite IH. apply Permutation_swap.
Qed.

Lemma sort_perm l : JS.sort cmp l ≡ₚ l.
Proof.
  induction l as [|x l IH]; simpl; [done|].
  fold (JS.sort cmp l). by rewrite sort_insert_perm, IH.
Qed.

Lemma sort_insert_sorted x l :
  StronglySorted R l → StronglySorted R (JS.sort_insert cmp x l).
Proof.
  induction 1 as [|y l Hl IH Hy]; simpl.
  - repeat constructor.
  - destruct (Z.leb_spec (cmp x y) 0) as [Hle|Hgt].
    + constructor; [by constructor|].
      constructor; [by apply cmp_le|].
      eapply Forall_impl; [exact Hy|]. intros z Hz.
      by transitivity y; [apply cmp_le|].
    + constructor; [done|].
      rewrite sort_insert_perm. constructor; [by apply cmp_gt|done].
Qed.

Lemma sort_sorted l : StronglySorted R (JS.sort cmp l).
Proof.
  induction l as [|x l IH]; simpl; [constructor|].
  by apply sort_insert_sorted.
Qed.

End sort_facts.

(** ** App.loadConversations *)

Section loadConversations_facts.
Variable Date_getTime : string → option Z.

Local Abbreviation valid := (App.valid Date_getTime).
Local Abbreviation timeOf := (App.timeOf Date_getTime).

Local Abbreviation newer := (newer_first Date_getTime).

Local Instance newer_first_trans : Transitive newer.
Proof. unfold newer_first. intros a b c ??. lia. Qed.

Lemma loadConversations_shown data st :
  App.conversations (App.loadConversations Date_getTime (Resolves data) st)
  = JS.sort (App.compareFn Date_getTime) data.
Proof. reflexivity. Qed.

Lemma shown_sorted data :
  StronglySorted newer (JS.sort (App.compareFn Date_getTime) data).
Proof.
  apply sort_sorted; [| |apply _];
    unfold App.compareFn, newer_first; intros; lia.
Qed.

Lemma sorted_lookup {A} (R : relation A) (l : list A) i j a b :
  StronglySorted R l → l !! i = Some a → l !! j = Some b → i < j → R a b.
Proof.
  intros Hs. revert i j. induction Hs as [|x l Hl IH Hx]; intros i j Hi Hj Hij.
  - by rewrite lookup_nil in Hi.
  - destruct j as [|j]; [lia|]. destruct i as [|i]; simplify_eq/=.
    + eapply Forall_forall; [exact Hx|]. by eapply list_elem_of_lookup_2.
    + eapply IH; eauto with lia.
Qed.

(** C9 (amended).  When the server answers with [data], the list shown is a
    permutation of [data] (nothing added, nothing dropped) in descending
    order of the sort key.  The key of a conversation is the time of its
    [updated_at] when that is a non-empty string and of its [created_at]
    otherwise, an unparsable time counting as 0.  A conversation with an
    unparsable time therefore comes after every conversation whose time is
    positive, and before every conversation whose time is negative. *)
Theorem loadConversations_sorted (data : list ConversationSummary.t) (st : App.State) :
  let shown :=
    App.conversations (App.loadConversations Date_getTime (Resolves data) st) in
  shown ≡ₚ data
  ∧ StronglySorted newer shown
  ∧ (∀ c s, ConversationSummary.updated_at c = Some s → s ≠ EmptyString →
       valid c = default 0%Z (Date_getTime s))
  ∧ (∀ c, ConversationSummary.updated_at c = None
          ∨ ConversationSummary.updated_at c = Some EmptyString →
       valid c = default 0%Z (Date_getTime (ConversationSummary.created_at c)))
  ∧ (∀ i j a b, shown !! i = Some a → shown !! j = Some b →
       timeOf a = None → (0 < valid b)%Z → j < i)
  ∧ (∀ i j a b, shown !! i = Some a → shown !! j = Some b →
       timeOf a = None → (valid b < 0)%Z → i < j).
Proof.
  intros shown. unfold shown. rewrite loadConversations_shown.
  pose proof (shown_sorted data) as Hs.
  split_and!.
  - apply sort_perm.
  - done.
  - intros c s Hu Hne. unfold App.valid, App.timeOf. rewrite Hu. simpl.
    destruct s; [done|]. simpl. by destruct (Date_getTime _).
  - intros c [Hu|Hu]; unfold App.valid, App.timeOf; rewrite Hu; simpl;
      by destruct (Date_getTime _).
  - intros i j a b Hi Hj Ha Hb.
    assert (valid a = 0%Z) as Ha0 by (unfold App.valid; by rewrite Ha).
    destruct (decide (j < i)) as [|Hge]; [done|].
    destruct (decide (i = j)) as [->|Hne]; [simplify_eq; lia|].
    pose proof (sorted_lookup _ _ i j a b Hs Hi Hj ltac:(lia)) as Hab.
    unfold newer_first in Hab. lia.
  - intros i j a b Hi Hj Ha Hb.
    assert (valid a = 0%Z) as Ha0 by (unfold App.valid; by rewrite Ha).
    destruct (decide (i < j)) as [|Hge]; [done|].
    destruct (decide (i = j)) as [->|Hne]; [simplify_eq; lia|].
    pose proof (sorted_lookup _ _ j i b a Hs Hj Hi ltac:(lia)) as Hab.
    unfold newer_first in Hab. lia.
Qed.

End loadConversations_facts.

(** C9 (as stated) fails: the conversation whose time cannot be parsed gets
    key 0 and is shown before the conversation dated before 1970, not last. *)
Lemma loadConversations_unparsable_not_last :
  App.timeOf sample_getTime conv_undated = None
  ∧ App.timeOf sample_getTime conv_1969 = Some (-1000)%Z
  ∧ App.conversations
      (App.loadConversations sample_getTime
         (Resolves [conv_1969; conv_undated; conv_2024]) app0)
    = [conv_2024; conv_undated; conv_1969].
Proof. by vm_compute. Qed.

Lemma loadConversations_sorted_witness :
  let shown :=
    App.conversations
      (App.loadConversations sample_getTime
         (Resolves [conv_1969; conv_undated; conv_2024]) app0) in
  (shown !! 1 = Some conv_undated ∧ shown !! 0 = Some conv_2024
   ∧ App.timeOf sample_getTime conv_undated = None
   ∧ (0 < App.valid sample_getTime conv_2024)%Z)
  ∧ 0 < 1.
Proof.
  split; [by vm_compute|].
  pose proof (loadConversations_sorted sample_getTime
    [conv_1969; conv_undated; conv_2024] app0) as (_ & _ & _ & _ & H & _).
  apply (H 1 0 conv_undated conv_2024); by vm_compute.
Defined.

(** ** App.handleTitleUpdate *)

Lemma retitle_lookup id newTitle prev i :
  App.retitle id newTitle prev !! i
  = (λ c, if bool_decide (ConversationSummary.id c = id)
          then ConversationSummary.mk (ConversationSummary.id c) newTitle
                 (ConversationSummary.created_at c) (ConversationSummary.updated_at c)
          else c) <$> prev !! i.
Proof. unfold App.retitle. apply list_lookup_fmap. Qed.

Lemma retitle_absent id newTitle prev :
  (∀ c, c ∈ prev → ConversationSummary.id c ≠ id) →
  App.retitle id newTitle prev = prev.
Proof.
  intros Hno. unfold App.retitle.
  induction prev as [|c prev IH]; [done|].
  rewrite fmap_cons, IH by (intros; apply Hno; by right).
  rewrite bool_decide_eq_false_2; [done|]. apply Hno. by left.
Qed.

(** C10.  [handleTitleUpdate id newTitle] touches nothing but titles of
    conversations whose id is [id]: the list keeps its length and order,
    every conversation with another id is unchanged, a conversation with
    that id gets the new title and keeps its id, [created_at] and
    [updated_at], and when no conversation has that id the list is
    unchanged.  The rest of the application state is unchanged. *)
Theorem handleTitleUpdate_only_title (id newTitle : string) (st : App.State) :
  let st' := App.handleTitleUpdate id newTitle st in
  length (App.conversations st') = length (App.conversations st)
  ∧ (∀ i c, App.conversations st !! i = Some c →
       ∃ c', App.conversations st' !! i = Some c'
         ∧ ConversationSummary.id c' = ConversationSummary.id c
         ∧ ConversationSummary.created_at c' = ConversationSummary.created_at c
         ∧ ConversationSummary.updated_at c' = ConversationSummary.updated_at c
         ∧ (ConversationSummary.id c = id → ConversationSummary.title c' = newTitle)
         ∧ (ConversationSummary.id c ≠ id → c' = c))
  ∧ ((∀ c, c ∈ App.conversations st → ConversationSummary.id c ≠ id) →
       App.conversations st' = App.conversations st)
  ∧ App.token st' = App.token st
  ∧ App.userName st' = App.userName st
  ∧ App.currentConversationId st' = App.currentConversationId st
  ∧ App.messages st' = App.messages st
  ∧ App.localStorage st' = App.localStorage st.
Proof.
  simpl. split_and!; try done.
  - unfold App.retitle. by rewrite length_fmap.
  - intros i c Hc. rewrite retitle_lookup, Hc. simpl.
    case_bool_decide as Hid.
    + eexists. split; [done|]. by destruct c.
    + exists c. by split_and!.
  - apply retitle_absent.
Qed.

Lemma handleTitleUpdate_only_title_witness :
  let before := App.mkState (Some "jwt") "ada" [conv_undated; conv_2024] None [] ∅ in
  let after := App.handleTitleUpdate "c3" "Ticket #5 is open" before in
  (App.conversations before !! 1 = Some conv_2024
   ∧ ConversationSummary.id conv_2024 = "c3")
  ∧ ∃ c', App.conversations after !! 1 = Some c'
      ∧ ConversationSummary.title c' = "Ticket #5 is open"
      ∧ ConversationSummary.created_at c' = "2024-04-30T09:00:00.000Z".
Proof.
  split; [by split|].
  pose proof (handleTitleUpdate_only_title "c3" "Ticket #5 is open"
    (App.mkState (Some "jwt") "ada" [conv_undated; conv_2024] None [] ∅))
    as (_ & H & _).
  destruct (H 1 conv_2024 eq_refl) as (c' & Hc' & _ & Hcreated & _ & Htitle & _).
  exists c'. split; [exact Hc'|]. split; [exact (Htitle eq_refl)|exact Hcreated].
Defined.

(** ** White space and [trim] *)

Lemma string_app_assoc (a b c : string) : (a +:+ b) +:+ c = a +:+ (b +:+ c).
Proof. induction a as [|x a IH]; [done|]. unfold String.app in *. simpl. by rewrite IH. Qed.

Lemma string_app_empty_r (a : string) : a +:+ EmptyString = a.
Proof. induction a as [|x a IH]; [done|]. unfold String.app in *. simpl. by rewrite IH. Qed.

Lemma string_app_cons c (a b : string) : String c a +:+ b = String c (a +:+ b).
Proof. done. Qed.

Lemma string_app_empty_l (s : string) : EmptyString +:+ s = s.
Proof. done. Qed.

Lemma rev_app_spec s1 s2 : String.rev_app s1 s2 = String.rev s1 +:+ s2.
Proof.
  unfold String.rev. revert s2.
  induction s1 as [|c s1 IH]; intros s2; simpl; [done|].
  rewrite IH, (IH (String c EmptyString)), string_app_assoc. done.
Qed.

Lemma string_rev_cons c s : String.rev (String c s) = String.rev s +:+ String c EmptyString.
Proof. unfold String.rev at 1. simpl. by rewrite rev_app_spec. Qed.

Lemma prefix_empty s : String.prefix EmptyString s = true.
Proof. by destruct s. Qed.

Lemma prefix_refl p : String.prefix p p = true.
Proof. induction p as [|c p IH]; simpl; [done|]. by destruct (Ascii.ascii_dec c c). Qed.

Lemma prefix_app p s t : String.prefix p s = true → String.prefix p (s +:+ t) = true.
Proof.
  revert s. induction p as [|c p IH]; intros s; [intros _; apply prefix_empty|].
  destruct s as [|d s]; [done|].
  rewrite string_app_cons. simpl. destruct (Ascii.ascii_dec c d); auto.
Qed.

Lemma string_ind3 (P : string → Prop) :
  P EmptyString →
  (∀ c1, P EmptyString → P (String c1 EmptyString)) →
  (∀ c1 c2, P (String c2 EmptyString) → P EmptyString →
     P (String c1 (String c2 EmptyString))) →
  (∀ c1 c2 c3 s, P (String c2 (String c3 s)) → P (String c3 s) → P s →
     P (String c1 (String c2 (String c3 s)))) →
  ∀ s, P s.
Proof.
  intros H0 H1 H2 H3 s.
  cut (P s ∧ (∀ c, P (String c s)) ∧ (∀ c c', P (String c (String c' s)))); [tauto|].
  induction s as [|a s (IH1 & IH2 & IH3)].
  - split_and!; auto.
  - split_and!; auto.
Qed.

Lemma isSpace_elem w : JS.isSpace w = true ↔ w ∈ JS.whitespace.
Proof.
  unfold JS.isSpace. rewrite existsb_exists. split.
  - intros (x & Hx & ->%String.eqb_eq). by apply list_elem_of_In.
  - intros Hw. exists w. split; [by apply list_elem_of_In|apply String.eqb_refl].
Qed.

Lemma allSpace_trimStart s : JS.allSpace (JS.trimStart s) = JS.allSpace s.
Proof.
  induction s as [|c1 IH0|c1 c2 IH1 IH0|c1 c2 c3 s IH2 IH1 IH0] using string_ind3.
  - done.
  - simpl. destruct (JS.isSpace (String c1 EmptyString)) eqn:H1; simpl; [done|].
    by rewrite H1.
  - cbn [JS.trimStart JS.allSpace].
    destruct (JS.isSpace (String c1 EmptyString)) eqn:H1; [exact IH1|].
    destruct (JS.isSpace (String c1 (String c2 EmptyString))) eqn:H2; [done|].
    cbn [JS.allSpace]. by rewrite H1, H2.
  - cbn [JS.trimStart JS.allSpace].
    destruct (JS.isSpace (String c1 EmptyString)) eqn:H1; [exact IH2|].
    destruct (JS.isSpace (String c1 (String c2 EmptyString))) eqn:H2; [exact IH1|].
    destruct (JS.isSpace (String c1 (String c2 (String c3 EmptyString)))) eqn:H3;
      [exact IH0|].
    cbn [JS.allSpace]. by rewrite H1, H2, H3.
Qed.

Lemma trimEnd_empty s : JS.trimEnd s = EmptyString ↔ JS.allSpace s = true.
Proof.
  destruct s as [|c s]; [done|].
  cbn [JS.trimEnd]. by destruct (JS.allSpace (String c s)).
Qed.

Lemma trim_blank s : blank s = true ↔ JS.trim s = EmptyString.
Proof. unfold blank, JS.trim. by rewrite trimEnd_empty, allSpace_trimStart. Qed.

Lemma truthy_trim s : JS.truthy (JS.trim s) = negb (blank s).
Proof.
  destruct (blank s) eqn:Hs.
  - apply trim_blank in Hs. by rewrite Hs.
  - destruct (JS.trim s) eqn:Ht; [|done].
    apply trim_blank in Ht. congruence.
Qed.

(** ** ChatArea.handleSend: the guard *)

(** C8.  With an input that is empty or white space only, or with no
    conversation selected, [handleSend] does nothing: it issues no request
    and makes no call, whatever the network would answer, and the message
    list, the input text, the loading and streaming flags and the abort
    controller are what they were. *)
Theorem handleSend_guard_noop
    (p : ChatArea.Props) (net : ChatArea.Network (list ChatArea.Line))
    (st : ChatArea.State) :
  blank (ChatArea.input st) = true ∨ ChatArea.conversationId p = None →
  let (st', effects) := ChatArea.handleSend p net st in
  effects = []
  ∧ ChatArea.messages st' = ChatArea.messages st
  ∧ ChatArea.input st' = ChatArea.input st
  ∧ ChatArea.isLoading st' = ChatArea.isLoading st
  ∧ ChatArea.isStreaming st' = ChatArea.isStreaming st
  ∧ st' = st.
Proof.
  intros Hguard. unfold ChatArea.handleSend.
  destruct (ChatArea.conversationId p) as [cid|]; [|done].
  destruct Hguard as [Hb|?]; [|done].
  by rewrite truthy_trim, Hb.
Qed.

Lemma handleSend_guard_noop_witness :
  (blank (ChatArea.input chat0) = true ∨ ChatArea.conversationId props0 = None)
  ∧ let (st', effects) :=
      ChatArea.handleSend props0
        (ChatArea.response_stream [[ChatArea.Parsed (ChatArea.ev_token "4")]]
           ChatArea.end_done) chat0 in
    effects = []
    ∧ ChatArea.messages st' = ChatArea.messages chat0
    ∧ ChatArea.input st' = ChatArea.input chat0
    ∧ ChatArea.isLoading st' = ChatArea.isLoading chat0
    ∧ ChatArea.isStreaming st' = ChatArea.isStreaming chat0
    ∧ st' = chat0.
Proof.
  split; [left; reflexivity|].
  apply (handleSend_guard_noop props0 _ chat0). left. reflexivity.
Defined.

(** ** ChatArea: cancelling a turn *)

Lemma handleSend_sends p net st cid :
  ChatArea.conversationId p = Some cid →
  JS.truthy cid = true →
  blank (ChatArea.input st) = false →
  ChatArea.handleSend p net st
  = let (L, thrown) := ChatArea.tryBlock cid net (loop0 p cid st) in
    (ChatArea.mkState (ChatArea.catchBlock thrown (ChatArea.msgs L))
       EmptyString false false false, ChatArea.calls L).
Proof.
  intros Hcid Ht Hb. unfold ChatArea.handleSend.
  by rewrite Hcid, truthy_trim, Hb, Ht.
Qed.

(** C5.  Cancelling a turn appends nothing.  When the request is aborted
    after [chunks] were received, the message list is exactly the one their
    events produced, the same as if the stream had ended there; when it is
    aborted before any response, the list is the previous one and the user
    message.  No apology and no assistant message is added on the way out,
    the loading and streaming flags are cleared, and [handleStop] itself
    leaves the message list alone and clears both flags. *)
Theorem cancel_appends_nothing
    (p : ChatArea.Props) (st : ChatArea.State) (cid : string)
    (chunks : list (list ChatArea.Line)) :
  ChatArea.conversationId p = Some cid →
  JS.truthy cid = true →
  blank (ChatArea.input st) = false →
  let aborted :=
    (ChatArea.handleSend p (ChatArea.response_stream chunks ChatArea.end_abort) st).1 in
  let early := (ChatArea.handleSend p ChatArea.fetch_abort st).1 in
  ChatArea.messages aborted
    = ChatArea.msgs (ChatArea.whileRead cid chunks (loop0 p cid st))
  ∧ ChatArea.handleSend p (ChatArea.response_stream chunks ChatArea.end_abort) st
    = ChatArea.handleSend p (ChatArea.response_stream chunks ChatArea.end_done) st
  ∧ ChatArea.messages early = ChatArea.messages st ++ [userMsg st]
  ∧ ChatArea.isLoading aborted = false ∧ ChatArea.isStreaming aborted = false
  ∧ ChatArea.isLoading early = false ∧ ChatArea.isStreaming early = false
  ∧ (∀ running, ChatArea.abortControllerRef running = true →
       let (stopped, abortCalled) := ChatArea.handleStop running in
       abortCalled = true
       ∧ ChatArea.messages stopped = ChatArea.messages running
       ∧ ChatArea.isLoading stopped = false
       ∧ ChatArea.isStreaming stopped = false).
Proof.
  intros Hcid Ht Hb. simpl.
  rewrite !(handleSend_sends _ _ _ cid) by done. simpl.
  split_and!; try done.
  intros running Hr. unfold ChatArea.handleStop. by rewrite Hr.
Qed.

Lemma cancel_appends_nothing_witness :
  (ChatArea.conversationId props0 = Some "conv-1"
   ∧ JS.truthy "conv-1" = true
   ∧ blank (ChatArea.input chatHi) = false)
  ∧ ChatArea.messages
      (ChatArea.handleSend props0
         (ChatArea.response_stream chunksHi ChatArea.end_abort) chatHi).1
    = [Message.make role_assistant "Hello! How can I help?" None;
       Message.make role_user "What is 2+2?" None;
       Message.make role_assistant "Adding the numbers." (Some type_thought);
       Message.make role_assistant "4" (Some type_message)].
Proof.
  split; [by split_and!|].
  pose proof (cancel_appends_nothing props0 chatHi "conv-1" chunksHi
    eq_refl eq_refl eq_refl) as (H & _).
  exact H.
Defined.

(** By contrast, a read that fails with any other error does add a message. *)
Lemma read_error_apologises p st cid chunks :
  ChatArea.conversationId p = Some cid →
  JS.truthy cid = true →
  blank (ChatArea.input st) = false →
  ChatArea.messages
    (ChatArea.handleSend p (ChatArea.response_stream chunks ChatArea.end_error) st).1
  = ChatArea.msgs (ChatArea.whileRead cid chunks (loop0 p cid st))
    ++ [ChatArea.apology].
Proof. intros. by rewrite (handleSend_sends _ _ _ cid). Qed.

(** ** ChatArea: the read loop *)

Lemma onToken_fresh ai prev :
  (∀ m, last prev = Some m →
     Message.role m = role_user ∨ Message.type m = Some type_thought) →
  ChatArea.onToken ai prev = prev ++ [narration ai].
Proof.
  intros Hlast. unfold ChatArea.onToken.
  destruct (last prev) as [m|]; [|done].
  destruct (Hlast m eq_refl) as [->| ->]; [done|].
  by rewrite orb_true_r.
Qed.

Lemma onToken_overwrite ai pre m :
  Message.role m ≠ role_user →
  Message.type m ≠ Some type_thought →
  ChatArea.onToken ai (pre ++ [m])
  = pre ++ [Message.mk (Message.role m) ai (Some type_message) (Message.id m)
              (Message.timestamp m) (Message.thoughts m) (Message.auth_config m)].
Proof.
  intros Hr Ht. unfold ChatArea.onToken. rewrite last_snoc.
  rewrite !bool_decide_eq_false_2 by done. simpl.
  rewrite length_app. simpl.
  replace (length pre + 1 - 1) with (length pre + 0) by lia.
  by rewrite insert_app_r.
Qed.

(** Whatever came before, the message a token event leaves last holds the
    whole of [aiContent]: every fragment since the start of the turn. *)
Lemma onEvent_token_last cid c L :
  ∃ m, last (ChatArea.msgs (ChatArea.onEvent cid (ChatArea.ev_token c) L).1) = Some m
     ∧ Message.content m = ChatArea.aiContent L +:+ c
     ∧ ChatArea.aiContent (ChatArea.onEvent cid (ChatArea.ev_token c) L).1
       = ChatArea.aiContent L +:+ c.
Proof.
  simpl. unfold ChatArea.onToken.
  destruct (last (ChatArea.msgs L)) as [m|] eqn:Hlast.
  - destruct (_ || _).
    + eexists. by rewrite last_snoc.
    + apply last_Some in Hlast as [pre ->].
      rewrite length_app. simpl.
      replace (length pre + 1 - 1) with (length pre + 0) by lia.
      rewrite insert_app_r. simpl. eexists. by rewrite last_snoc.
  - eexists. by rewrite last_snoc.
Qed.

(** Once a narration message is open, a run of token events keeps it the
    last message and extends it by exactly their fragments, in order. *)
Lemma forLines_tokens cid fragments pre ai calls :
  ChatArea.forLines cid (tokenLines fragments)
    (ChatArea.mkLoop (pre ++ [narration ai]) ai calls)
  = ChatArea.mkLoop (pre ++ [narration (ai +:+ concatenation fragments)])
      (ai +:+ concatenation fragments) calls.
Proof.
  revert ai. induction fragments as [|c fragments IH]; intros ai; simpl.
  - by rewrite string_app_empty_r.
  - rewrite onToken_overwrite by done. simpl.
    rewrite <- string_app_assoc. exact (IH (ai +:+ c)).
Qed.

(** A turn that streams nothing but tokens, in one chunk: the transcript
    gains one assistant message, the concatenation of the fragments. *)
Lemma tokens_only_turn cid c fragments sent calls m :
  last sent = Some m → Message.role m = role_user →
  ChatArea.msgs
    (ChatArea.forLines cid (tokenLines (c :: fragments))
       (ChatArea.mkLoop sent EmptyString calls))
  = sent ++ [narration (concatenation (c :: fragments))].
Proof.
  intros Hlast Hrole. simpl.
  rewrite onToken_fresh by (intros ? ?; left; congruence).
  exact (f_equal ChatArea.msgs (forLines_tokens cid fragments sent c calls)).
Qed.

(** Within one chunk nothing after [[DONE]] is looked at. *)
Lemma forLines_done cid rest L :
  ChatArea.forLines cid (ChatArea.Done :: rest) L = L.
Proof. reflexivity. Qed.

(** Within one chunk nothing after an [auth_required] event is looked at,
    and the event adds exactly one message, which carries the challenge. *)
Lemma forLines_auth_required cid sn cfg rest L :
  ChatArea.forLines cid (ChatArea.Parsed (ChatArea.ev_auth_required sn cfg) :: rest) L
  = ChatArea.push
      (Message.mk role_assistant (AuthFields.instructions (ChatArea.wire_fields cfg))
         (Some type_auth_required) None None None
         (Some (ChatArea.authConfig sn cfg))) L.
Proof. reflexivity. Qed.

(** The wire form of the end marker, whatever the JSON parser does. *)
Lemma classify_done JSON_parse : ChatArea.classify JSON_parse "data: [DONE]" = ChatArea.Done.
Proof. reflexivity. Qed.

Lemma whileRead_app cid chunks1 chunks2 L :
  ChatArea.whileRead cid (chunks1 ++ chunks2) L
  = ChatArea.whileRead cid chunks2 (ChatArea.whileRead cid chunks1 L).
Proof. revert L. induction chunks1; intros; simpl; auto. Qed.

(** ** ChatArea: what a turn's stream does to the transcript *)

(** C1, evaluated where it fails.  The turn streams a token, a thought and
    another token.  The assistant message opened after the thought should
    hold the one fragment that followed it; the client fills it with
    [aiContent], which is never reset, so it repeats the text of the first
    message. *)
Theorem token_after_thought_repeats_earlier_text :
  concatenation (sinceLastNonToken turnLookup []) = " Ticket #5 is open."
  ∧ ChatArea.messages
      (ChatArea.handleSend props0
         (ChatArea.response_stream (oneByOne turnLookup) ChatArea.end_done) chatHi).1
    = [hello;
       Message.make role_user "What is 2+2?" None;
       narration "2+2 is 4.";
       thought "Ticket #5 found.";
       narration "2+2 is 4. Ticket #5 is open."].
Proof. by vm_compute. Qed.

(** The same slip after an event that is neither a token nor a thought: the
    token does not open a message at all, it overwrites the plan. *)
Lemma token_after_plan_overwrites_it :
  ChatArea.messages
    (ChatArea.handleSend props0
       (ChatArea.response_stream
          (oneByOne [ChatArea.ev_plan "1. answer"; ChatArea.ev_token "4"])
          ChatArea.end_done) chatHi).1
  = [hello;
     Message.make role_user "What is 2+2?" None;
     Message.make role_plan "4" (Some type_message)].
Proof. by vm_compute. Qed.

(** C2, evaluated where it fails.  [break] on [[DONE]] leaves the loop over
    the lines of the chunk, not the read loop: an error frame that arrives
    in a later chunk is still appended to the transcript. *)
Theorem frame_after_done_is_processed :
  let upToDone := [[ChatArea.Parsed (ChatArea.ev_token "4")]; [ChatArea.Done; ChatArea.NotData]] in
  let late := [ChatArea.Parsed (ChatArea.ev_error "tool failed")] in
  ChatArea.messages
    (ChatArea.handleSend props0
       (ChatArea.response_stream upToDone ChatArea.end_done) chatHi).1
  = [hello; Message.make role_user "What is 2+2?" None; narration "4"]
  ∧ ChatArea.messages
      (ChatArea.handleSend props0
         (ChatArea.response_stream (upToDone ++ [late]) ChatArea.end_done) chatHi).1
    = [hello; Message.make role_user "What is 2+2?" None; narration "4";
       Message.make role_error "tool failed" (Some type_error)].
Proof. by vm_compute. Qed.

(** C3, evaluated where it fails.  [break] after [auth_required] leaves the
    loop over the lines of the chunk only.  A thought that arrives in the
    next chunk is appended although the challenge is still open; a token
    that arrives there overwrites the challenge message, so that no
    [auth_required] message is left in the transcript. *)
Theorem event_after_auth_required_is_processed :
  let auth := [ChatArea.Parsed (ChatArea.ev_auth_required "github" githubChallenge)] in
  ChatArea.messages
    (ChatArea.handleSend props0
       (ChatArea.response_stream [auth] ChatArea.end_done) chatHi).1
  = [hello; Message.make role_user "What is 2+2?" None; githubPrompt]
  ∧ ChatArea.messages
      (ChatArea.handleSend props0
         (ChatArea.response_stream
            [auth; [ChatArea.Parsed (ChatArea.ev_thought "Trying another tool.")]]
            ChatArea.end_done) chatHi).1
    = [hello; Message.make role_user "What is 2+2?" None; githubPrompt;
       thought "Trying another tool."]
  ∧ ChatArea.messages
      (ChatArea.handleSend props0
         (ChatArea.response_stream
            [auth; [ChatArea.Parsed (ChatArea.ev_token "4")]]
            ChatArea.end_done) chatHi).1
    = [hello; Message.make role_user "What is 2+2?" None;
       Message.mk role_assistant "4" (Some type_message) None None None
         (Message.auth_config githubPrompt)].
Proof. by vm_compute. Qed.

(** The challenge message is shown as an AuthPrompt with the provider, the
    kind of challenge, the instructions, the target key and the URL. *)
Lemma auth_required_message_rendered sn cfg :
  MessageBubble.render
    (Message.mk role_assistant (AuthFields.instructions (ChatArea.wire_fields cfg))
       (Some type_auth_required) None None None (Some (ChatArea.authConfig sn cfg)))
  = MessageBubble.AuthBubble
      (AuthPrompt.mkProps
         (default sn (ChatArea.wire_server_name cfg))
         (JS.or_else (AuthFields.auth_url (ChatArea.wire_fields cfg)) EmptyString)
         (AuthFields.instructions (ChatArea.wire_fields cfg))
         (AuthFields.target_env_var (ChatArea.wire_fields cfg))
         (AuthFields.type (ChatArea.wire_fields cfg))
         (AuthFields.button_text (ChatArea.wire_fields cfg))).
Proof.
  unfold MessageBubble.render. simpl.
  by destruct (AuthFields.target_env_var (ChatArea.wire_fields cfg)).
Qed.

(** ** ChatArea: the [question] event *)

(** C7 (as stated) fails: a clarification is not streamed as narration, it
    has an event kind of its own, and the client treats the two
    differently.  After the same first token, the question opens a second
    message where a narration token with the same text extends the first. *)
Lemma question_is_an_event_kind_of_its_own :
  ChatArea.messages
    (ChatArea.handleSend props0
       (ChatArea.response_stream
          (oneByOne [ChatArea.ev_token "Sure."; ChatArea.ev_question "Which ticket?"])
          ChatArea.end_done) chatHi).1
  = [hello; Message.make role_user "What is 2+2?" None;
     narration "Sure."; narration "Which ticket?"]
  ∧ ChatArea.messages
      (ChatArea.handleSend props0
         (ChatArea.response_stream
            (oneByOne [ChatArea.ev_token "Sure."; ChatArea.ev_token "Which ticket?"])
            ChatArea.end_done) chatHi).1
    = [hello; Message.make role_user "What is 2+2?" None;
       narration "Sure.Which ticket?"].
Proof. by vm_compute. Qed.

(** C7 (amended).  A clarification reaches the client as an event of kind
    [question].  The client appends it as one new message with role
    assistant and type message, the shape of a message that narration
    opens, and shows it in the ordinary assistant bubble.  The event does
    not end the loop: the lines and chunks after it are processed as usual,
    and the turn ends with both flags cleared. *)
Theorem question_shown_as_assistant_message
    (p : ChatArea.Props) (st : ChatArea.State) (cid c : string)
    (before after : list (list ChatArea.Line)) (rest : list ChatArea.Line) :
  ChatArea.conversationId p = Some cid →
  JS.truthy cid = true →
  blank (ChatArea.input st) = false →
  let L := ChatArea.whileRead cid before (loop0 p cid st) in
  let st' :=
    (ChatArea.handleSend p
       (ChatArea.response_stream
          (before ++ (ChatArea.Parsed (ChatArea.ev_question c) :: rest) :: after)
          ChatArea.end_done) st).1 in
  ChatArea.onEvent cid (ChatArea.ev_question c) L
    = (ChatArea.mkLoop (ChatArea.msgs L ++ [narration c])
         (ChatArea.aiContent L) (ChatArea.calls L), false)
  ∧ MessageBubble.render (narration c) = MessageBubble.ChatBubble false c
  ∧ (∀ sent m calls, last sent = Some m → Message.role m = role_user →
       ChatArea.msgs
         (ChatArea.onEvent cid (ChatArea.ev_token c)
            (ChatArea.mkLoop sent EmptyString calls)).1
       = sent ++ [narration c])
  ∧ ChatArea.messages st'
    = ChatArea.msgs
        (ChatArea.whileRead cid after
           (ChatArea.forLines cid rest (ChatArea.push (narration c) L)))
  ∧ ChatArea.isLoading st' = false
  ∧ ChatArea.isStreaming st' = false.
Proof.
  intros Hcid Ht Hb. simpl.
  rewrite (handleSend_sends _ _ _ cid) by done. simpl.
  rewrite whileRead_app. split_and!; try done.
  intros sent m calls Hlast Hrole.
  apply onToken_fresh. intros ? ?. left. congruence.
Qed.

Lemma question_shown_as_assistant_message_witness :
  (ChatArea.conversationId props0 = Some "conv-1"
   ∧ JS.truthy "conv-1" = true
   ∧ blank (ChatArea.input chatHi) = false)
  ∧ ChatArea.messages
      (ChatArea.handleSend props0
         (ChatArea.response_stream
            ([[ChatArea.Parsed (ChatArea.ev_thought "Two tickets match.")]]
             ++ [ChatArea.Parsed (ChatArea.ev_question "Which ticket?"); ChatArea.NotData]
             :: [[ChatArea.Done]])
            ChatArea.end_done) chatHi).1
    = [hello; Message.make role_user "What is 2+2?" None;
       thought "Two tickets match."; narration "Which ticket?"].
Proof.
  split; [by split_and!|].
  pose proof (question_shown_as_assistant_message props0 chatHi "conv-1"
    "Which ticket?" [[ChatArea.Parsed (ChatArea.ev_thought "Two tickets match.")]]
    [[ChatArea.Done]] [ChatArea.NotData] eq_refl eq_refl eq_refl)
    as (_ & _ & _ & H & _).
  exact H.
Defined.

(** ** AuthPrompt.handleSubmit *)

Lemma endsWith_refl w : JS.endsWith w w = true.
Proof. apply prefix_refl. Qed.

Lemma endsWith_cons w c s : JS.endsWith w s = true → JS.endsWith w (String c s) = true.
Proof. unfold JS.endsWith. rewrite string_rev_cons. apply prefix_app. Qed.

Lemma trailingSpace_intro w s :
  JS.isSpace w = true → JS.endsWith w s = true → JS.trailingSpace s = true.
Proof.
  intros Hw%isSpace_elem%list_elem_of_In Hs. unfold JS.trailingSpace.
  apply existsb_exists. eauto.
Qed.

Lemma trailingSpace_cons c s :
  JS.trailingSpace s = true → JS.trailingSpace (String c s) = true.
Proof.
  unfold JS.trailingSpace. rewrite !existsb_exists.
  intros (w & Hw & Hs). exists w. eauto using endsWith_cons.
Qed.

Lemma allSpace_trailingSpace s :
  JS.allSpace s = true → s ≠ EmptyString → JS.trailingSpace s = true.
Proof.
  induction s as [|c1 IH0|c1 c2 IH1 IH0|c1 c2 c3 s IH2 IH1 IH0] using string_ind3;
    [done|..]; cbn [JS.allSpace]; intros Hs _.
  - destruct (JS.isSpace (String c1 EmptyString)) eqn:H1; [|done].
    eauto using trailingSpace_intro, endsWith_refl.
  - destruct (JS.isSpace (String c1 EmptyString)) eqn:H1.
    { apply trailingSpace_cons, IH1; done. }
    destruct (JS.isSpace (String c1 (String c2 EmptyString))) eqn:H2; [|done].
    eauto using trailingSpace_intro, endsWith_refl.
  - destruct (JS.isSpace (String c1 EmptyString)) eqn:H1.
    { apply trailingSpace_cons, IH2; done. }
    destruct (JS.isSpace (String c1 (String c2 EmptyString))) eqn:H2.
    { do 2 apply trailingSpace_cons. apply IH1; done. }
    destruct (JS.isSpace (String c1 (String c2 (String c3 EmptyString)))) eqn:H3; [|done].
    destruct s as [|c4 s].
    + eauto using trailingSpace_intro, endsWith_refl.
    + do 3 apply trailingSpace_cons. apply IH0; done.
Qed.

Lemma trimStart_id s : JS.leadingSpace s = false → JS.trimStart s = s.
Proof.
  destruct s as [|c1 [|c2 [|c3 s]]]; cbn [JS.leadingSpace JS.trimStart]; [done|..].
  - by destruct (JS.isSpace _).
  - by do 2 (destruct (JS.isSpace _); [done|]).
  - by do 3 (destruct (JS.isSpace _); [done|]).
Qed.

Lemma trimEnd_id s : JS.trailingSpace s = false → JS.trimEnd s = s.
Proof.
  induction s as [|c s IH]; [done|]. intros Hs. cbn [JS.trimEnd].
  destruct (JS.allSpace (String c s)) eqn:Hb.
  { apply allSpace_trailingSpace in Hb; [congruence|done]. }
  f_equal. apply IH. destruct (JS.trailingSpace s) eqn:Ht; [|done].
  apply (trailingSpace_cons c) in Ht. congruence.
Qed.

Lemma trim_tight s : tight s = true → JS.trim s = s.
Proof.
  unfold tight. intros [H1%negb_true_iff H2%negb_true_iff]%andb_prop.
  unfold JS.trim. by rewrite (trimStart_id s), trimEnd_id.
Qed.

(** C4 (amended).  What is submitted is the pasted token with the white
    space at its ends removed, and only when something is left.  For a
    token that is not all white space, [handleSubmit] issues exactly one
    [submitMCPAuth] request, carrying the provider name, the trimmed token
    and the target key; the request carries the pasted token itself when
    that has no white space at its ends.  When the request succeeds the
    success view is shown.  When it fails the success flag is untouched,
    the failure text is set, and no second request is made.  For a token of
    white space only nothing is sent and nothing changes. *)
Theorem handleSubmit_token_paste (p : AuthPrompt.Props) (st : AuthPrompt.State) :
  blank (AuthPrompt.token st) = false →
  let req :=
    PostMCPAuth (AuthPrompt.serverName p) (JS.trim (AuthPrompt.token st))
      (AuthPrompt.targetEnvVar p) in
  AuthPrompt.handleSubmit p (Resolves ()) st
    = (AuthPrompt.mkState (AuthPrompt.token st) false true None, [req])
  ∧ AuthPrompt.render p (AuthPrompt.handleSubmit p (Resolves ()) st).1
    = AuthPrompt.SuccessView (AuthPrompt.serverName p)
  ∧ (∀ status,
       AuthPrompt.handleSubmit p (Throws status) st
       = (AuthPrompt.mkState (AuthPrompt.token st) false (AuthPrompt.isSuccess st)
            (Some saveFailed), [req]))
  ∧ (tight (AuthPrompt.token st) = true →
       req = PostMCPAuth (AuthPrompt.serverName p) (AuthPrompt.token st)
               (AuthPrompt.targetEnvVar p))
  ∧ JS.trim (AuthPrompt.token st) ≠ EmptyString
  ∧ (∀ resp blankSt, blank (AuthPrompt.token blankSt) = true →
       AuthPrompt.handleSubmit p resp blankSt = (blankSt, [])).
Proof.
  intros Hb. simpl. unfold AuthPrompt.handleSubmit.
  rewrite truthy_trim, Hb. simpl. split_and!; try done.
  - intros Ht. by rewrite trim_tight.
  - intros Ht%trim_blank. congruence.
  - intros resp blankSt Hbl. by rewrite truthy_trim, Hbl.
Qed.

Lemma handleSubmit_token_paste_witness :
  blank (AuthPrompt.token (pasted "ghp_abc123")) = false
  ∧ AuthPrompt.handleSubmit githubProps (Resolves ()) (pasted "ghp_abc123")
    = (AuthPrompt.mkState "ghp_abc123" false true None,
       [PostMCPAuth "github" "ghp_abc123" "GITHUB_TOKEN"])
  ∧ AuthPrompt.handleSubmit githubProps (Throws (Some 500%Z)) (pasted "ghp_abc123")
    = (AuthPrompt.mkState "ghp_abc123" false false (Some saveFailed),
       [PostMCPAuth "github" "ghp_abc123" "GITHUB_TOKEN"]).
Proof.
  split; [reflexivity|].
  pose proof (handleSubmit_token_paste githubProps (pasted "ghp_abc123") eq_refl)
    as (Hok & _ & Hfail & _).
  split; [exact Hok|exact (Hfail (Some 500%Z))].
Defined.

(** C4 (as stated) fails on non-empty tokens with white space at an end:
    what is sent is not the pasted token, and a token of spaces is not sent
    at all.  The same holds for white space outside ASCII, such as the
    no-break space that a copy from a web page can carry. *)
Lemma handleSubmit_does_not_send_pasted_token :
  (AuthPrompt.handleSubmit githubProps (Resolves ()) (pasted " ghp_abc123 ")).2
  = [PostMCPAuth "github" "ghp_abc123" "GITHUB_TOKEN"]
  ∧ " ghp_abc123 " ≠ "ghp_abc123"
  ∧ "  " ≠ EmptyString
  ∧ AuthPrompt.handleSubmit githubProps (Resolves ()) (pasted "  ") = (pasted "  ", [])
  ∧ (AuthPrompt.handleSubmit githubProps (Resolves ())
       (pasted (nbsp +:+ "ghp_abc123" +:+ nbsp))).2
    = [PostMCPAuth "github" "ghp_abc123" "GITHUB_TOKEN"]
  ∧ nbsp ≠ EmptyString
  ∧ AuthPrompt.handleSubmit githubProps (Resolves ()) (pasted nbsp) = (pasted nbsp, []).
Proof. by vm_compute. Qed.

(** ** The settings views: saved credentials on screen *)




Lemma field_data (config : gmap string string) x value :
  config !! x = Some value → JS.field (JS.data config) x = JS.data value.
Proof.
  intros Hx. unfold JS.field, JS.get_or, JS.get. rewrite Hx. by destruct value.
Qed.












(** ** ChatArea: how far a [break] reaches *)

(** [[DONE]] ends the lines of its own chunk and nothing else: the chunks
    read after it are processed like any other. *)
Lemma done_skips_only_its_chunk cid before rest after L :
  ChatArea.whileRead cid (before ++ (ChatArea.Done :: rest) :: after) L
  = ChatArea.whileRead cid after (ChatArea.whileRead cid before L).
Proof. by rewrite whileRead_app. Qed.

(** Likewise for the [break] of [auth_required]. *)
Lemma auth_required_skips_only_its_chunk cid sn cfg before rest after L :
  ChatArea.whileRead cid
    (before ++ (ChatArea.Parsed (ChatArea.ev_auth_required sn cfg) :: rest) :: after) L
  = ChatArea.whileRead cid after
      (ChatArea.push
         (Message.mk role_assistant
            (AuthFields.instructions (ChatArea.wire_fields cfg))
            (Some type_auth_required) None None None
            (Some (ChatArea.authConfig sn cfg)))
         (ChatArea.whileRead cid before L)).
Proof. by rewrite whileRead_app. Qed.

(** ** ChatArea: from the text of a chunk to its lines *)

Lemma classify_data JSON_parse payload :
  ChatArea.classify JSON_parse ("data: " +:+ payload)
  = if bool_decide (JS.trim payload = "[DONE]") then ChatArea.Done
    else match JSON_parse (JS.trim payload) with
         | Some event => ChatArea.Parsed event
         | None => ChatArea.Unparsable
         end.
Proof.
  unfold ChatArea.classify, JS.startsWith.
  vm_compute ("data: " +:+ payload). simpl.
  by rewrite !prefix_empty.
Qed.

(** The end marker as the server frames it: the marker line and the two
    empty strings that [split] leaves after the blank line. *)
Lemma lines_done_frame JSON_parse :
  ChatArea.lines JSON_parse
    ("data: [DONE]" +:+ String JS.newline (String JS.newline EmptyString))
  = [ChatArea.Done; ChatArea.NotData; ChatArea.NotData].
Proof. reflexivity. Qed.

(** Two frames in one chunk, the first of them the end marker: the second
    is never parsed. *)
Lemma lines_after_done_same_chunk JSON_parse cid payload L :
  ChatArea.forLines cid
    (ChatArea.lines JSON_parse
       ("data: [DONE]" +:+ String JS.newline ("data: " +:+ payload))) L
  = L.
Proof.
  unfold ChatArea.lines.
  change (JS.split JS.newline
            ("data: [DONE]" +:+ String JS.newline ("data: " +:+ payload)))
    with ("data: [DONE]"
          :: JS.split_go JS.newline EmptyString ("data: " +:+ payload)).
  reflexivity.
Qed.


(** * Further properties of the code *)

(** ** ChatArea: what a turn leaves alone *)

Lemma onToken_keeps_prefix sent m ai prev :
  last sent = Some m → Message.role m = role_user →
  sent `prefix_of` prev → sent `prefix_of` ChatArea.onToken ai prev.
Proof.
  intros Hlast Hrole [suffix ->].
  destruct suffix as [|x suffix _] using rev_ind.
  - rewrite app_nil_r, onToken_fresh by (intros ? ?; left; congruence).
    by apply prefix_app_r.
  - rewrite app_assoc. unfold ChatArea.onToken. rewrite last_snoc.
    destruct (_ || _).
    + rewrite <- !app_assoc. by apply prefix_app_r.
    + rewrite length_app. simpl.
      replace (length (sent ++ suffix) + 1 - 1) with (length (sent ++ suffix) + 0) by lia.
      rewrite insert_app_r. simpl. rewrite <- app_assoc. by apply prefix_app_r.
Qed.

Lemma onLine_keeps_prefix cid sent m line L :
  last sent = Some m → Message.role m = role_user →
  sent `prefix_of` ChatArea.msgs L →
  sent `prefix_of` ChatArea.msgs (ChatArea.onLine cid line L).1.
Proof.
  intros Hlast Hrole Hpre.
  destruct line as [| | |[]]; simpl; try done;
    try (by apply prefix_app_r).
  by eapply onToken_keeps_prefix.
Qed.

Lemma forLines_keeps_prefix cid sent m ls L :
  last sent = Some m → Message.role m = role_user →
  sent `prefix_of` ChatArea.msgs L →
  sent `prefix_of` ChatArea.msgs (ChatArea.forLines cid ls L).
Proof.
  intros Hlast Hrole. revert L. induction ls as [|line ls IH]; intros L Hpre; [done|].
  simpl. pose proof (onLine_keeps_prefix cid sent m line L Hlast Hrole Hpre) as Hstep.
  destruct (ChatArea.onLine cid line L) as [L' brk]. destruct brk; auto.
Qed.

Lemma whileRead_keeps_prefix cid sent m chunks L :
  last sent = Some m → Message.role m = role_user →
  sent `prefix_of` ChatArea.msgs L →
  sent `prefix_of` ChatArea.msgs (ChatArea.whileRead cid chunks L).
Proof.
  intros Hlast Hrole. revert L.
  induction chunks as [|chunk chunks IH]; intros L Hpre; [done|].
  simpl. apply IH. by eapply forLines_keeps_prefix.
Qed.

(** X1.  A turn never touches what was in the transcript before it, nor the
    user message it starts with: whatever the network does and whatever the
    stream contains, the earlier messages followed by the user message are
    a prefix of the message list the turn ends with. *)
Theorem turn_keeps_earlier_messages
    (p : ChatArea.Props) (net : ChatArea.Network (list ChatArea.Line))
    (st : ChatArea.State) (cid : string) :
  ChatArea.conversationId p = Some cid →
  JS.truthy cid = true →
  blank (ChatArea.input st) = false →
  (ChatArea.messages st ++ [userMsg st])
    `prefix_of` ChatArea.messages (ChatArea.handleSend p net st).1.
Proof.
  intros Hcid Ht Hb. rewrite (handleSend_sends _ _ _ cid) by done.
  assert (∀ chunks,
    (ChatArea.messages st ++ [userMsg st])
      `prefix_of` ChatArea.msgs (ChatArea.whileRead cid chunks (loop0 p cid st))) as Hloop.
  { intros chunks. eapply whileRead_keeps_prefix; [apply last_snoc|done|done]. }
  destruct net as [| | |chunks []]; simpl;
    try done; try (by apply prefix_app_r); try apply Hloop.
Qed.

Lemma turn_keeps_earlier_messages_witness :
  (ChatArea.conversationId props0 = Some "conv-1"
   ∧ JS.truthy "conv-1" = true
   ∧ blank (ChatArea.input chatHi) = false)
  ∧ [hello; Message.make role_user "What is 2+2?" None]
      `prefix_of`
      ChatArea.messages
        (ChatArea.handleSend props0
           (ChatArea.response_stream
              (oneByOne [ChatArea.ev_plan "1. answer"; ChatArea.ev_token "4"])
              ChatArea.end_error) chatHi).1.
Proof.
  split; [by split_and!|].
  exact (turn_keeps_earlier_messages props0 _ chatHi "conv-1" eq_refl eq_refl eq_refl).
Defined.

(** ** ChatArea: lines without effect, and chunk boundaries *)

Lemma forLines_significant cid ls L :
  ChatArea.forLines cid (filter (λ l, significant l) ls) L = ChatArea.forLines cid ls L.
Proof.
  revert L. induction ls as [|line ls IH]; intros L; [done|].
  destruct line as [| | |event].
  - rewrite filter_cons_False by (simpl; auto). simpl. apply IH.
  - rewrite filter_cons_True by done. done.
  - rewrite filter_cons_False by (simpl; auto). simpl. apply IH.
  - rewrite filter_cons_True by done. simpl.
    destruct (ChatArea.onEvent cid event L) as [L' []]; [done|apply IH].
Qed.

Lemma whileRead_significant cid chunks L :
  ChatArea.whileRead cid (filter (λ l, significant l) <$> chunks) L
  = ChatArea.whileRead cid chunks L.
Proof.
  revert L. induction chunks as [|chunk chunks IH]; intros L; [done|].
  simpl. by rewrite forLines_significant, IH.
Qed.

(** X2.  Lines that carry no data (blank lines, comments, fields other than
    [data: ]) and data lines that do not parse have no effect on the
    component: a turn ends in the same state and makes the same calls when
    they are removed from every chunk of the response. *)
Theorem noise_lines_change_nothing
    (p : ChatArea.Props) (net : ChatArea.Network (list ChatArea.Line))
    (st : ChatArea.State) :
  ChatArea.handleSend p (ChatArea.mapNetwork (filter (λ l, significant l)) net) st
  = ChatArea.handleSend p net st.
Proof.
  unfold ChatArea.handleSend.
  destruct (ChatArea.conversationId p) as [cid|]; [|done].
  destruct (_ && _); [|done].
  destruct net as [| | |chunks fin]; simpl; try done.
  by rewrite whileRead_significant.
Qed.

Lemma onLine_no_break cid line L :
  breaks line = false → (ChatArea.onLine cid line L).2 = false.
Proof. by destruct line as [| | |[]]. Qed.

Lemma forLines_app cid ls1 ls2 L :
  Forall (λ l, breaks l = false) ls1 →
  ChatArea.forLines cid (ls1 ++ ls2) L
  = ChatArea.forLines cid ls2 (ChatArea.forLines cid ls1 L).
Proof.
  intros Hno. revert L. induction Hno as [|line ls1 Hline _ IH]; intros L; [done|].
  simpl. pose proof (onLine_no_break cid line L Hline) as Hbrk.
  destruct (ChatArea.onLine cid line L) as [L' brk]. simpl in Hbrk. subst brk.
  apply IH.
Qed.

Lemma whileRead_concat cid chunks L :
  Forall (Forall (λ l, breaks l = false)) chunks →
  ChatArea.whileRead cid chunks L = ChatArea.forLines cid (concat chunks) L.
Proof.
  intros Hno. revert L. induction Hno as [|chunk chunks Hchunk _ IH]; intros L; [done|].
  simpl. by rewrite forLines_app, IH.
Qed.

(** X3.  When the response contains neither [[DONE]] nor an
    [auth_required] event and its token events form one run, it does not
    matter how its lines are grouped into chunks: the turn ends as if they
    had all arrived in one chunk.  (With one run of tokens the message that
    holds the narration is written last by the updater of the last token,
    so the result is also the same whenever React runs the updaters.) *)
Theorem chunking_is_immaterial_without_break
    (p : ChatArea.Props) (chunks : list (list ChatArea.Line)) (fin : ChatArea.ReadEnd)
    (st : ChatArea.State) :
  Forall (Forall (λ l, breaks l = false)) chunks →
  oneRun (concat chunks) = true →
  ChatArea.handleSend p (ChatArea.response_stream chunks fin) st
  = ChatArea.handleSend p (ChatArea.response_stream [concat chunks] fin) st.
Proof.
  intros Hno _. unfold ChatArea.handleSend.
  destruct (ChatArea.conversationId p) as [cid|]; [|done].
  destruct (_ && _); [|done]. simpl.
  by rewrite whileRead_concat.
Qed.

Lemma chunking_is_immaterial_without_break_witness :
  let answer :=
    [ChatArea.ev_intent "lookup"; ChatArea.ev_thought "Looking it up";
     ChatArea.ev_token "2+2 "; ChatArea.ev_title "Sums"; ChatArea.ev_token "is 4."] in
  (Forall (Forall (λ l, breaks l = false)) (oneByOne answer)
   ∧ oneRun (concat (oneByOne answer)) = true)
  ∧ ChatArea.handleSend props0
      (ChatArea.response_stream (oneByOne answer) ChatArea.end_done) chatHi
    = ChatArea.handleSend props0
        (ChatArea.response_stream [ChatArea.Parsed <$> answer] ChatArea.end_done)
        chatHi.
Proof.
  intros answer.
  assert (Forall (Forall (λ l, breaks l = false)) (oneByOne answer)) as Hno.
  { repeat constructor. }
  split; [split; [exact Hno|reflexivity]|].
  exact (chunking_is_immaterial_without_break props0 _ ChatArea.end_done chatHi Hno
           eq_refl).
Defined.

Lemma tokenLines_no_break fragments :
  Forall (λ l, breaks l = false) (tokenLines fragments).
Proof. unfold tokenLines. by apply Forall_fmap, Forall_true. Qed.

Lemma Forall_concat_inv {A} (P : A → Prop) (ls : list (list A)) :
  Forall P (concat ls) → Forall (Forall P) ls.
Proof.
  induction ls as [|l ls IH]; simpl; [constructor|].
  intros [? ?]%Forall_app. constructor; auto.
Qed.

(** X4.  A turn whose response consists of token events only, however they
    are spread over chunks and with noise lines anywhere between them, adds
    exactly one assistant message to the transcript, and its text is the
    concatenation of the fragments in the order they arrived. *)
Theorem tokens_only_stream_one_message
    (p : ChatArea.Props) (st : ChatArea.State) (cid c : string)
    (fragments : list string) (chunks : list (list ChatArea.Line))
    (fin : ChatArea.ReadEnd) :
  ChatArea.conversationId p = Some cid →
  JS.truthy cid = true →
  blank (ChatArea.input st) = false →
  concat (filter (λ l, significant l) <$> chunks) = tokenLines (c :: fragments) →
  fin ≠ ChatArea.end_error →
  ChatArea.messages (ChatArea.handleSend p (ChatArea.response_stream chunks fin) st).1
  = ChatArea.messages st ++ [userMsg st; narration (concatenation (c :: fragments))].
Proof.
  intros Hcid Ht Hb Hchunks Hfin.
  rewrite (handleSend_sends _ _ _ cid) by done.
  cbn [ChatArea.tryBlock].
  rewrite <- whileRead_significant, whileRead_concat.
  2:{ apply Forall_concat_inv. rewrite Hchunks. apply tokenLines_no_break. }
  rewrite Hchunks. unfold loop0.
  rewrite (tokens_only_turn cid c fragments _ _ (userMsg st))
    by (apply last_snoc || done).
  rewrite <- app_assoc. by destruct fin.
Qed.

Lemma tokens_only_stream_one_message_witness :
  (ChatArea.conversationId props0 = Some "conv-1"
   ∧ JS.truthy "conv-1" = true
   ∧ blank (ChatArea.input chatHi) = false
   ∧ concat (filter (λ l, significant l) <$> chunksNoisy)
     = tokenLines ["2+2 "; "is "; "4."]
   ∧ ChatArea.end_done ≠ ChatArea.end_error)
  ∧ ChatArea.messages
      (ChatArea.handleSend props0
         (ChatArea.response_stream chunksNoisy ChatArea.end_done) chatHi).1
    = [hello; Message.make role_user "What is 2+2?" None; narration "2+2 is 4."].
Proof.
  split; [by split_and!|].
  exact (tokens_only_stream_one_message props0 chatHi "conv-1" "2+2 " ["is "; "4."]
           chunksNoisy ChatArea.end_done eq_refl eq_refl eq_refl eq_refl
           ltac:(discriminate)).
Defined.


(** ** ChatArea: the calls a turn makes *)

Lemma onLine_calls cid line L :
  ChatArea.calls (ChatArea.onLine cid line L).1
  = ChatArea.calls L ++ (ChatArea.OnTitleUpdate cid <$> titlesOf [line]).
Proof. destruct line as [| | |[]]; simpl; by rewrite ?app_nil_r. Qed.

Lemma forLines_calls cid ls L :
  ∃ titles,
    ChatArea.calls (ChatArea.forLines cid ls L)
    = ChatArea.calls L ++ (ChatArea.OnTitleUpdate cid <$> titles).
Proof.
  revert L. induction ls as [|line ls IH]; intros L.
  - exists []. by rewrite app_nil_r.
  - simpl. pose proof (onLine_calls cid line L) as Hline.
    destruct (ChatArea.onLine cid line L) as [L' brk]. simpl in Hline.
    destruct brk; [by eexists|].
    destruct (IH L') as [titles ->]. rewrite Hline.
    eexists. by rewrite <- app_assoc, <- fmap_app.
Qed.

Lemma whileRead_calls cid chunks L :
  ∃ titles,
    ChatArea.calls (ChatArea.whileRead cid chunks L)
    = ChatArea.calls L ++ (ChatArea.OnTitleUpdate cid <$> titles).
Proof.
  revert L. induction chunks as [|chunk chunks IH]; intros L.
  - exists []. by rewrite app_nil_r.
  - simpl. destruct (IH (ChatArea.forLines cid chunk L)) as [titles2 ->].
    destruct (forLines_calls cid chunk L) as [titles1 ->].
    exists (titles1 ++ titles2). by rewrite fmap_app, app_assoc.
Qed.

Lemma titlesOf_cons line ls : titlesOf (line :: ls) = titlesOf [line] ++ titlesOf ls.
Proof. unfold titlesOf. simpl. by rewrite app_nil_r. Qed.

Lemma forLines_calls_no_break cid ls L :
  Forall (λ l, breaks l = false) ls →
  ChatArea.calls (ChatArea.forLines cid ls L)
  = ChatArea.calls L ++ (ChatArea.OnTitleUpdate cid <$> titlesOf ls).
Proof.
  intros Hno. revert L. induction Hno as [|line ls Hline _ IH]; intros L.
  - by rewrite app_nil_r.
  - cbn [ChatArea.forLines]. pose proof (onLine_calls cid line L) as Hcalls.
    pose proof (onLine_no_break cid line L Hline) as Hbrk.
    destruct (ChatArea.onLine cid line L) as [L' brk]. cbn [fst snd] in Hcalls, Hbrk.
    subst brk. by rewrite IH, Hcalls, <- app_assoc, <- fmap_app, <- titlesOf_cons.
Qed.

(** X5.  A send that passes the guard makes exactly one request: [POST
    /chat] with the bearer token, the id of the open conversation and the
    input as typed (not trimmed).  It is preceded by the [onNewMessage]
    call for the user message, and every later call is a title update for
    the open conversation. *)
Theorem send_makes_one_request
    (p : ChatArea.Props) (net : ChatArea.Network (list ChatArea.Line))
    (st : ChatArea.State) (cid : string) :
  ChatArea.conversationId p = Some cid →
  JS.truthy cid = true →
  blank (ChatArea.input st) = false →
  ∃ titles,
    (ChatArea.handleSend p net st).2
    = [ChatArea.OnNewMessage (Message.make role_user (ChatArea.input st) None);
       ChatArea.Fetch (PostChat (ChatArea.token p) cid (ChatArea.input st))]
      ++ (ChatArea.OnTitleUpdate cid <$> titles).
Proof.
  intros Hcid Ht Hb. rewrite (handleSend_sends _ _ _ cid) by done.
  destruct net as [| | |chunks fin]; simpl; try by exists [].
  apply whileRead_calls.
Qed.

Lemma send_makes_one_request_witness :
  (ChatArea.conversationId props0 = Some "conv-1"
   ∧ JS.truthy "conv-1" = true
   ∧ blank (ChatArea.input chatHi) = false)
  ∧ ∃ titles,
      (ChatArea.handleSend props0
         (ChatArea.response_stream
            (oneByOne [ChatArea.ev_token "4"; ChatArea.ev_title "Sums"])
            ChatArea.end_done) chatHi).2
      = [ChatArea.OnNewMessage (Message.make role_user "What is 2+2?" None);
         ChatArea.Fetch (PostChat "jwt" "conv-1" "What is 2+2?")]
        ++ (ChatArea.OnTitleUpdate "conv-1" <$> titles).
Proof.
  split; [by split_and!|].
  exact (send_makes_one_request props0 _ chatHi "conv-1" eq_refl eq_refl eq_refl).
Defined.

(** ** ChatArea and App: title events *)

Lemma retitle_retitle id t1 t2 l :
  App.retitle id t2 (App.retitle id t1 l) = App.retitle id t2 l.
Proof.
  unfold App.retitle. rewrite <- list_fmap_compose.
  apply list_fmap_ext. intros _ c _. simpl.
  destruct (decide (ConversationSummary.id c = id)) as [Hid|Hid].
  - rewrite (bool_decide_eq_true_2 _ Hid). simpl. by rewrite bool_decide_eq_true_2.
  - by rewrite !(bool_decide_eq_false_2 _ Hid).
Qed.

Lemma deliver_titles cid titles a :
  App.conversations
    (foldl deliver a (ChatArea.OnTitleUpdate cid <$> titles))
  = match last titles with
    | Some title => App.retitle cid title (App.conversations a)
    | None => App.conversations a
    end.
Proof.
  induction titles as [|title titles IH] using rev_ind; [done|].
  rewrite fmap_app, foldl_app, last_snoc. simpl. rewrite IH.
  destruct (last titles); [apply retitle_retitle|done].
Qed.

(** X6.  When a response without [[DONE]] and [auth_required] carries title
    events, the conversation list of [App] ends up with the last of them as
    the title of the open conversation, as if only that one had been sent;
    without a title event the list is unchanged. *)
Theorem last_title_event_wins
    (p : ChatArea.Props) (st : ChatArea.State) (cid : string)
    (chunks : list (list ChatArea.Line)) (fin : ChatArea.ReadEnd) (a : App.State) :
  ChatArea.conversationId p = Some cid →
  JS.truthy cid = true →
  blank (ChatArea.input st) = false →
  Forall (Forall (λ l, breaks l = false)) chunks →
  App.conversations
    (foldl deliver a
       (ChatArea.handleSend p (ChatArea.response_stream chunks fin) st).2)
  = match last (titlesOf (concat chunks)) with
    | Some title => App.retitle cid title (App.conversations a)
    | None => App.conversations a
    end.
Proof.
  intros Hcid Ht Hb Hno. rewrite (handleSend_sends _ _ _ cid) by done.
  cbn [ChatArea.tryBlock snd].
  rewrite whileRead_concat, forLines_calls_no_break by (done || by apply Forall_concat).
  unfold loop0. cbn [ChatArea.calls]. rewrite foldl_app. simpl.
  apply deliver_titles.
Qed.

Lemma last_title_event_wins_witness :
  let chunks :=
    oneByOne [ChatArea.ev_title "Sum"; ChatArea.ev_token "4";
              ChatArea.ev_title "Adding 2 and 2"] in
  let a := App.mkState (Some "jwt") "ada"
             [ConversationSummary.mk "conv-1" "New chat" "2024-05-01T00:00:00.000Z" None;
              conv_2024] None [] ∅ in
  (ChatArea.conversationId props0 = Some "conv-1"
   ∧ JS.truthy "conv-1" = true
   ∧ blank (ChatArea.input chatHi) = false
   ∧ Forall (Forall (λ l, breaks l = false)) chunks)
  ∧ App.conversations
      (foldl deliver a
         (ChatArea.handleSend props0
            (ChatArea.response_stream chunks ChatArea.end_done) chatHi).2)
    = [ConversationSummary.mk "conv-1" "Adding 2 and 2" "2024-05-01T00:00:00.000Z" None;
       conv_2024].
Proof.
  simpl.
  assert (Forall (Forall (λ l, breaks l = false))
            (oneByOne [ChatArea.ev_title "Sum"; ChatArea.ev_token "4";
                       ChatArea.ev_title "Adding 2 and 2"])) as Hno.
  { repeat constructor. }
  split; [by split_and!|].
  exact (last_title_event_wins props0 chatHi "conv-1" _ ChatArea.end_done
           (App.mkState (Some "jwt") "ada"
              [ConversationSummary.mk "conv-1" "New chat" "2024-05-01T00:00:00.000Z" None;
               conv_2024] None [] ∅)
           eq_refl eq_refl eq_refl Hno).
Defined.

(** ** ChatArea: how a turn ends *)



Lemma tryBlock_calls cid net L :
  ∃ titles,
    ChatArea.calls (ChatArea.tryBlock cid net L).1
    = ChatArea.calls L ++ (ChatArea.OnTitleUpdate cid <$> titles).
Proof.
  destruct net as [| | |chunks fin]; simpl;
    try (exists []; by rewrite app_nil_r).
  apply whileRead_calls.
Qed.

Lemma tryBlock_keeps_prefix cid sent m net L :
  last sent = Some m → Message.role m = role_user →
  sent `prefix_of` ChatArea.msgs L →
  sent `prefix_of` ChatArea.msgs (ChatArea.tryBlock cid net L).1.
Proof.
  intros Hlast Hrole Hpre. destruct net as [| | |chunks fin]; simpl; try done.
  by eapply whileRead_keeps_prefix.
Qed.

Lemma catchBlock_keeps_prefix sent thrown ms :
  sent `prefix_of` ms → sent `prefix_of` ChatArea.catchBlock thrown ms.
Proof. intros Hpre. destruct thrown as [[]|]; simpl; try done. by apply prefix_app_r. Qed.

Lemma handleSend_result p net st cid :
  ChatArea.conversationId p = Some cid →
  JS.truthy cid = true →
  blank (ChatArea.input st) = false →
  ChatArea.handleSend p net st
  = (ChatArea.mkState
       (ChatArea.catchBlock (ChatArea.tryBlock cid net (loop0 p cid st)).2
          (ChatArea.msgs (ChatArea.tryBlock cid net (loop0 p cid st)).1))
       EmptyString false false false,
     ChatArea.calls (ChatArea.tryBlock cid net (loop0 p cid st)).1).
Proof.
  intros. rewrite (handleSend_sends _ _ _ cid) by done.
  by destruct (ChatArea.tryBlock cid net (loop0 p cid st)).
Qed.

(** ** ChatArea: sending while a turn is in flight *)

(** X8.  Nothing stops a second send while a turn is streaming.  In that
    state the textarea is enabled and the stop button has taken the place
    of the submit button, but Enter without Shift still runs [handleSend],
    which does not look at the flags: with a non-blank input it appends the
    user message and issues another [POST /chat].  Enter with Shift, and
    every other key, sends nothing. *)
Theorem enter_sends_while_streaming
    (p : ChatArea.Props) (net : ChatArea.Network (list ChatArea.Line))
    (st : ChatArea.State) (cid : string) :
  ChatArea.conversationId p = Some cid →
  JS.truthy cid = true →
  blank (ChatArea.input st) = false →
  ChatArea.isLoading st = true →
  ChatArea.isStreaming st = true →
  ChatInput.textareaDisabled (ChatInput.render st) = false
  ∧ ChatInput.button (ChatInput.render st) = ChatInput.StopButton
  ∧ ChatArea.Fetch (PostChat (ChatArea.token p) cid (ChatArea.input st))
      ∈ (ChatInput.handleKeyDown "Enter" false p net st).1.2
  ∧ (ChatArea.messages st ++ [userMsg st])
      `prefix_of` ChatArea.messages (ChatInput.handleKeyDown "Enter" false p net st).1.1
  ∧ ChatInput.handleKeyDown "Enter" true p net st = ((st, []), false)
  ∧ (∀ key shift, key ≠ "Enter" →
       ChatInput.handleKeyDown key shift p net st = ((st, []), false)).
Proof.
  intros Hcid Ht Hb Hloading Hstreaming.
  unfold ChatInput.render. simpl. rewrite Hloading, Hstreaming. simpl.
  unfold ChatInput.handleKeyDown. simpl.
  rewrite (handleSend_result _ _ _ cid) by done. simpl.
  split_and!; try done.
  - destruct (tryBlock_calls cid net (loop0 p cid st)) as [titles ->].
    simpl. apply list_elem_of_further, list_elem_of_here.
  - apply catchBlock_keeps_prefix.
    eapply tryBlock_keeps_prefix; [apply last_snoc|done|done].
  - intros key shift Hkey. by rewrite bool_decide_eq_false_2.
Qed.

Lemma enter_sends_while_streaming_witness :
  let streaming :=
    ChatArea.mkState [hello; Message.make role_user "What is 2+2?" None]
      "And 3+3?" true true true in
  (ChatArea.conversationId props0 = Some "conv-1"
   ∧ JS.truthy "conv-1" = true
   ∧ blank (ChatArea.input streaming) = false
   ∧ ChatArea.isLoading streaming = true
   ∧ ChatArea.isStreaming streaming = true)
  ∧ ChatArea.Fetch (PostChat "jwt" "conv-1" "And 3+3?")
      ∈ (ChatInput.handleKeyDown "Enter" false props0 ChatArea.fetch_error streaming).1.2.
Proof.
  simpl. split; [by split_and!|].
  pose proof (enter_sends_while_streaming props0 ChatArea.fetch_error
    (ChatArea.mkState [hello; Message.make role_user "What is 2+2?" None]
       "And 3+3?" true true true) "conv-1" eq_refl eq_refl eq_refl eq_refl eq_refl)
    as (_ & _ & H & _).
  exact H.
Defined.

(** ** App.loadConversationHistory *)

Lemma formatMessage_shape m :
  Forall reloaded (History.formatMessage m) ∧ length (History.formatMessage m) ≤ 2.
Proof.
  unfold History.formatMessage, reloaded.
  destruct m as [r c ts].
  destruct ts as [[|t ts]|]; destruct c as [[|a c]|]; destruct r as [[]|];
    simpl; split; try lia;
    repeat constructor; simpl; try done; eauto.
Qed.

Lemma formatMessages_shape raws :
  Forall reloaded (History.formatMessages raws)
  ∧ length (History.formatMessages raws) ≤ 2 * length raws.
Proof.
  unfold History.formatMessages.
  induction raws as [|m raws [IH1 IH2]]; [split; [constructor|simpl; lia]|].
  destruct (formatMessage_shape m) as [H1 H2].
  change ((m :: raws) ≫= History.formatMessage)
    with (History.formatMessage m ++ (raws ≫= History.formatMessage)).
  split; [by apply Forall_app|]. rewrite length_app. simpl. lia.
Qed.


(** X10.  Reloading keeps every stored user message, in order, with its
    content (the empty string when there is none), whatever else the
    history contains. *)
Theorem history_keeps_user_messages (raws : list History.RawMessage) :
  filter (λ m, Message.role m = role_user) (History.formatMessages raws)
  = (λ r, Message.make role_user
            (JS.or_else (History.content r) EmptyString) (Some type_message))
    <$> filter (λ r, History.role r = History.raw role_user) raws.
Proof.
  unfold History.formatMessages.
  induction raws as [|[r c ts] raws IH]; [done|].
  change ((History.mkRaw r c ts :: raws) ≫= History.formatMessage)
    with (History.formatMessage (History.mkRaw r c ts)
          ++ (raws ≫= History.formatMessage)).
  rewrite filter_app, IH. clear IH.
  assert (filter (λ m, Message.role m = role_user)
            match ts with
            | Some (t :: ts0) =>
                [Message.make role_assistant
                   (String.concat (String JS.newline EmptyString) (t :: ts0))
                   (Some type_thought)]
            | _ => []
            end = []) as Hthoughts by (by destruct ts as [[|??]|]).
  unfold History.formatMessage. cbn [History.thoughts History.content History.role].
  rewrite filter_app, Hthoughts. cbn [app].
  destruct (decide (r = History.raw role_user)) as [->|Hr].
  - rewrite filter_cons_True by done.
    rewrite bool_decide_eq_false_2 by done. by rewrite andb_false_r.
  - rewrite filter_cons_False by done.
    destruct (_ && _); [done|].
    destruct r as [[]|]; try done.
Qed.

(** X11.  Stored messages are formatted as the live stream shows them.  A
    stored tool message with content is the message a [thought] event
    appends; stored intent, plan and error messages are the messages of
    the events of those kinds; a stored assistant message with content is
    the message a [question] event appends and the one a first token
    opens.  A stored user message differs from the live one in its type
    only and is drawn in the same bubble. *)
Theorem history_matches_live_stream (cid c : string) (L : ChatArea.Loop) :
  c ≠ EmptyString →
  let stored r := History.formatMessage (History.mkRaw r (Some c) None) in
  let live e := ChatArea.msgs (ChatArea.onEvent cid e L).1 in
  live (ChatArea.ev_thought c) = ChatArea.msgs L ++ stored History.raw_tool
  ∧ live (ChatArea.ev_intent c) = ChatArea.msgs L ++ stored (History.raw role_intent)
  ∧ live (ChatArea.ev_plan c) = ChatArea.msgs L ++ stored (History.raw role_plan)
  ∧ live (ChatArea.ev_error c) = ChatArea.msgs L ++ stored (History.raw role_error)
  ∧ live (ChatArea.ev_question c)
    = ChatArea.msgs L ++ stored (History.raw role_assistant)
  ∧ stored (History.raw role_assistant) = [narration c]
  ∧ MessageBubble.render <$> stored (History.raw role_user)
    = [MessageBubble.render (Message.make role_user c None)]
  ∧ stored (History.raw role_user) ≠ [Message.make role_user c None].
Proof.
  intros Hc. destruct c as [|a c]; [done|]. simpl. by split_and!.
Qed.

Lemma history_matches_live_stream_witness :
  "Found it." ≠ EmptyString
  ∧ ChatArea.msgs
      (ChatArea.onEvent "conv-1" (ChatArea.ev_thought "Found it.")
         (ChatArea.mkLoop [hello] EmptyString [])).1
    = [hello]
      ++ History.formatMessage (History.mkRaw History.raw_tool (Some "Found it.") None).
Proof.
  split; [done|].
  pose proof (history_matches_live_stream "conv-1" "Found it."
                (ChatArea.mkLoop [hello] EmptyString []) ltac:(done)) as (H & _).
  exact H.
Defined.

(** X12.  A reloaded conversation never shows an auth prompt: no formatted
    message carries an auth challenge, so even a stored message with role
    [auth_required] is drawn as an ordinary bubble with its content. *)
Theorem history_never_shows_auth_prompt (raws : list History.RawMessage) :
  (∀ m props, m ∈ History.formatMessages raws →
     MessageBubble.render m ≠ MessageBubble.AuthBubble props)
  ∧ (∀ c, MessageBubble.render
            <$> History.formatMessage
                  (History.mkRaw (History.raw role_auth_required) (Some c) None)
          = [MessageBubble.ChatBubble false c]).
Proof.
  split.
  - intros m props Hm.
    destruct (formatMessages_shape raws) as [Hshape _].
    rewrite Forall_forall in Hshape.
    destruct (Hshape m Hm) as (_ & Hcfg & _).
    unfold MessageBubble.render. rewrite Hcfg.
    destruct (MessageBubble.tagged m role_auth_required type_auth_required);
      by destruct (_ || _).
  - intros c. by destruct c.
Qed.

(** ** App.handleDeleteConversation *)

(** X13.  Deleting a conversation.  Without confirmation nothing happens
    and no request is made; when the request fails the state is unchanged.
    When it succeeds, exactly the conversations with that id are gone, the
    others keep their order, no sidebar entry has the id, and a title
    update that arrives later for the id changes nothing.  If the deleted
    conversation was the open one, the main area goes back to the start
    screen with an empty transcript; otherwise the open conversation and
    its transcript stay. *)
Theorem handleDeleteConversation_removes
    (id : string) (st : AppShell.State) :
  (∀ resp, AppShell.handleDeleteConversation id false resp st = (st, []))
  ∧ (∀ status,
       AppShell.handleDeleteConversation id true (Throws status) st
       = (st, [Api.delete_conversation id]))
  ∧ let st' := (AppShell.handleDeleteConversation id true (Resolves ()) st).1 in
    (∀ c, c ∈ App.conversations (AppShell.app st') ↔
          c ∈ App.conversations (AppShell.app st) ∧ ConversationSummary.id c ≠ id)
    ∧ App.conversations (AppShell.app st')
        `sublist_of` App.conversations (AppShell.app st)
    ∧ Forall (λ item, Sidebar.itemId item ≠ id) (Sidebar.items (AppShell.app st'))
    ∧ (∀ title,
         App.conversations (App.handleTitleUpdate id title (AppShell.app st'))
         = App.conversations (AppShell.app st'))
    ∧ (App.currentConversationId (AppShell.app st) = Some id →
         App.currentConversationId (AppShell.app st') = None
         ∧ App.messages (AppShell.app st') = []
         ∧ AppShell.main st' = AppShell.StartScreen)
    ∧ (App.currentConversationId (AppShell.app st) ≠ Some id →
         App.currentConversationId (AppShell.app st')
         = App.currentConversationId (AppShell.app st)
         ∧ App.messages (AppShell.app st') = App.messages (AppShell.app st)).
Proof.
  assert (App.conversations
            (AppShell.app (AppShell.handleDeleteConversation id true (Resolves ()) st).1)
          = filter (λ c, ConversationSummary.id c ≠ id)
              (App.conversations (AppShell.app st))) as Hkept.
  { simpl. by case_bool_decide. }
  split; [done|]. split; [done|]. cbv zeta.
  split; [|split; [|split; [|split; [|split]]]].
  - intros c. rewrite Hkept, list_elem_of_filter. tauto.
  - rewrite Hkept. apply sublist_filter.
  - unfold Sidebar.items. rewrite Hkept, Forall_fmap.
    apply Forall_forall. by intros c [? _]%list_elem_of_filter.
  - intros title.
    change (App.conversations (App.handleTitleUpdate id title ?a))
      with (App.retitle id title (App.conversations a)).
    rewrite Hkept. apply retitle_absent.
    by intros c [? _]%list_elem_of_filter.
  - intros Hcur. unfold AppShell.main. simpl.
    by rewrite bool_decide_eq_true_2.
  - intros Hcur. simpl. by rewrite bool_decide_eq_false_2.
Qed.

Lemma handleDeleteConversation_removes_witness :
  let st :=
    AppShell.mkState
      (App.mkState (Some "jwt") "ada" [conv_2024; conv_undated; conv_1969]
         (Some "c2") [hello] ∅)
      false false (AppShell.mkPrefs "gpt-4o" "Inter" "Medium") in
  App.currentConversationId (AppShell.app st) = Some "c2"
  ∧ App.currentConversationId
      (AppShell.app (AppShell.handleDeleteConversation "c2" true (Resolves ()) st).1)
    = None
  ∧ App.messages
      (AppShell.app (AppShell.handleDeleteConversation "c2" true (Resolves ()) st).1)
    = []
  ∧ AppShell.main (AppShell.handleDeleteConversation "c2" true (Resolves ()) st).1
    = AppShell.StartScreen.
Proof.
  simpl. split; [done|].
  pose proof (handleDeleteConversation_removes "c2"
    (AppShell.mkState
       (App.mkState (Some "jwt") "ada" [conv_2024; conv_undated; conv_1969]
          (Some "c2") [hello] ∅)
       false false (AppShell.mkPrefs "gpt-4o" "Inter" "Medium")))
    as (_ & _ & _ & _ & _ & _ & H & _).
  exact (H eq_refl).
Defined.

(** ** App.loadConversations: ties and reloading *)

Section sort_by_key.
Context {A : Type} (key : A → Z).

Local Abbreviation by_key := (λ a b : A, (key b - key a)%Z).

Lemma filter_sort_insert k x l :
  filter (λ a, key a = k) (JS.sort_insert by_key x l)
  = filter (λ a, key a = k) (x :: l).
Proof.
  induction l as [|y l IH]; simpl; [done|].
  destruct (Z.leb_spec (key y - key x) 0) as [Hle|Hgt]; [done|].
  destruct (decide (key x = k)) as [Hx|Hx].
  - rewrite (filter_cons_False _ y) by lia.
    rewrite IH, (filter_cons_True _ x) by done.
    rewrite (filter_cons_True _ x) by done.
    by rewrite (filter_cons_False _ y) by lia.
  - rewrite (filter_cons_False _ x) by done.
    destruct (decide (key y = k)).
    + rewrite !(filter_cons_True _ y) by done.
      by rewrite IH, (filter_cons_False _ x) by done.
    + rewrite !(filter_cons_False _ y) by done.
      by rewrite IH, (filter_cons_False _ x) by done.
Qed.

Lemma filter_sort k l :
  filter (λ a, key a = k) (JS.sort by_key l) = filter (λ a, key a = k) l.
Proof.
  induction l as [|x l IH]; [done|].
  change (JS.sort by_key (x :: l)) with (JS.sort_insert by_key x (JS.sort by_key l)).
  rewrite filter_sort_insert.
  destruct (decide (key x = k)).
  - by rewrite !(filter_cons_True _ x), IH by done.
  - by rewrite !(filter_cons_False _ x), IH by done.
Qed.

Lemma sort_sorted_id l :
  StronglySorted (λ a b, (key b ≤ key a)%Z) l → JS.sort by_key l = l.
Proof.
  induction 1 as [|x l Hl IH Hx]; [done|].
  change (JS.sort by_key (x :: l)) with (JS.sort_insert by_key x (JS.sort by_key l)).
  rewrite IH. destruct l as [|y l]; [done|]. simpl.
  apply Forall_cons in Hx as [Hxy _].
  destruct (Z.leb_spec (key y - key x) 0); [done|lia].
Qed.

End sort_by_key.

(** X14.  Sorting the conversation list is stable and idempotent:
    conversations with the same timestamp (among them all those whose time
    cannot be parsed) stay in the order the server sent them, and loading
    a list that is already in the order shown changes nothing. *)
Theorem loadConversations_stable (Date_getTime : string → option Z)
    (data : list ConversationSummary.t) (st st2 : App.State) :
  let shown :=
    App.conversations (App.loadConversations Date_getTime (Resolves data) st) in
  (∀ time,
     filter (λ c, App.valid Date_getTime c = time) shown
     = filter (λ c, App.valid Date_getTime c = time) data)
  ∧ App.conversations (App.loadConversations Date_getTime (Resolves shown) st2)
    = shown.
Proof.
  simpl. split.
  - intros time. apply (filter_sort (App.valid Date_getTime)).
  - apply (sort_sorted_id (App.valid Date_getTime)), shown_sorted.
Qed.

(** ** App: login, logout and local storage *)

(** X15.  The session is kept in local storage.  After [handleLogin] the
    conversation state is reset and a page opened from the stored values
    has the same token and user name; after [handleLogout] it has no token
    and shows the login form.  Neither changes any key of local storage
    other than [token] and [userName]. *)
Theorem login_logout_storage (newToken name : string) (st : AppShell.State) :
  let logged := AppShell.handleLogin newToken name st in
  let out := AppShell.handleLogout logged in
  let reopen s := AppShell.initial (App.localStorage (AppShell.app s)) in
  App.token (AppShell.app (reopen logged)) = Some newToken
  ∧ App.userName (AppShell.app (reopen logged)) = name
  ∧ AppShell.showsLogin (reopen logged) = negb (JS.truthy newToken)
  ∧ App.conversations (AppShell.app logged) = []
  ∧ App.currentConversationId (AppShell.app logged) = None
  ∧ App.messages (AppShell.app logged) = []
  ∧ App.token (AppShell.app (reopen out)) = None
  ∧ App.userName (AppShell.app (reopen out)) = EmptyString
  ∧ AppShell.showsLogin (reopen out) = true
  ∧ AppShell.showsLogin out = true
  ∧ (∀ k, k ≠ "token" → k ≠ "userName" →
       App.localStorage (AppShell.app logged) !! k
       = App.localStorage (AppShell.app st) !! k
       ∧ App.localStorage (AppShell.app out) !! k
         = App.localStorage (AppShell.app st) !! k).
Proof.
  assert (∀ m : gmap string string,
            <["userName" := name]> (<["token" := newToken]> m) !! "token"
            = Some newToken) as Htoken.
  { intros m. by rewrite lookup_insert_ne, lookup_insert_eq. }
  assert (∀ m : gmap string string,
            delete "userName" (delete "token" m) !! "token" = None) as Hgone.
  { intros m. by rewrite lookup_delete_ne, lookup_delete_eq. }
  simpl. rewrite !Htoken, !Hgone, !lookup_insert_eq, !lookup_delete_eq. simpl.
  split_and!; try done.
  - by destruct name.
  - unfold AppShell.showsLogin. simpl. by rewrite Htoken.
  - unfold AppShell.showsLogin. simpl. by rewrite Hgone.
  - intros k Hk1 Hk2.
    by rewrite !lookup_delete_ne, !lookup_insert_ne.
Qed.

(** ** api.ts: the Authorization header across logout *)

(** X16.  Logging out does not clear the Authorization header of the axios
    client.  After a successful login with a non-empty token and a logout,
    the login form is shown, the client still carries the bearer token of
    the user who logged out, and the next login request is sent with it. *)
Theorem logout_keeps_authorization_header
    (Date_getTime : string → option Z) (s : Session.t)
    (userName nextUser : string) (data : Login.TokenResponse)
    (respList respList2 : Awaited (list ConversationSummary.t))
    (respPrefs respPrefs2 : Awaited AppShell.UserPreferences)
    (resp2 : Awaited Login.TokenResponse) :
  JS.truthy (Login.access_token data) = true →
  let loggedOut :=
    Session.logout
      (Session.login Date_getTime userName (Resolves data) respList respPrefs s) in
  let stale := Some ("Bearer " +:+ Login.access_token data) in
  AppShell.showsLogin (Session.shell loggedOut) = true
  ∧ Api.authorization (Session.client loggedOut) = stale
  ∧ ∃ later,
      Session.sent
        (Session.login Date_getTime nextUser resp2 respList2 respPrefs2 loggedOut)
      = Session.sent loggedOut
        ++ Api.mkCall stale (Api.post_login nextUser) :: later.
Proof.
  intros Htoken. simpl.
  assert (Api.authorization
            (Session.client
               (Session.login Date_getTime userName (Resolves data) respList respPrefs s))
          = Some ("Bearer " +:+ Login.access_token data)) as Hheader.
  { unfold Session.login, Session.tokenEffect. simpl. rewrite Htoken. simpl.
    unfold Api.setAuthToken. by rewrite Htoken. }
  split_and!; [done|done|].
  unfold Session.login at 1. unfold Session.tokenEffect.
  destruct resp2 as [data2|status]; simpl.
  - destruct (JS.truthy (Login.access_token data2)); simpl;
      unfold Api.call; rewrite Hheader; [|by eexists].
    rewrite <- !app_assoc. by eexists.
  - unfold Api.call. rewrite Hheader. by eexists.
Qed.

Lemma logout_keeps_authorization_header_witness :
  let fresh := Session.mk (Api.mkClient None) (AppShell.initial ∅) [] in
  let loggedOut :=
    Session.logout
      (Session.login sample_getTime "ada" (Resolves (Login.mkToken "jwt-ada" "bearer" "ada"))
         (Resolves []) (Throws None) fresh) in
  JS.truthy "jwt-ada" = true
  ∧ Api.authorization (Session.client loggedOut) = Some "Bearer jwt-ada".
Proof.
  simpl. split; [done|].
  pose proof (logout_keeps_authorization_header sample_getTime
    (Session.mk (Api.mkClient None) (AppShell.initial ∅) [])
    "ada" "bob" (Login.mkToken "jwt-ada" "bearer" "ada")
    (Resolves []) (Resolves []) (Throws None) (Throws None) (Throws None) eq_refl)
    as (_ & H & _).
  exact H.
Defined.

(** ** PreferencesModal and App.applyPreferences: the font size *)

(** X17.  The font size selector has no effect on the size that is
    applied.  The values the selector offers are the ids of [SIZES];
    [applyPreferences] looks the value up among the five size names and
    falls back to 16px, and no id is a size name: whichever option is
    saved, the root font size becomes 16px.  Only the five names
    themselves give 12px to 20px.  A failed save changes no preference and
    leaves the modal open. *)
Theorem font_size_option_always_16px
    (st : PreferencesModal.GeneralState) (shell : AppShell.State) :
  (∀ id name, (id, name) ∈ PreferencesModal.SIZES →
     let saved :=
       (PreferencesModal.handleSave (Resolves ())
          (PreferencesModal.setFontSize id st) shell).1.2 in
     AppShell.fontSize (AppShell.preferences saved) = id
     ∧ AppShell.isSettingsOpen saved = false
     ∧ AppShell.rootFontSize (AppShell.applyPreferences (AppShell.preferences saved))
       = "16px")
  ∧ (∀ m f,
       (λ size, AppShell.rootFontSize (AppShell.applyPreferences (AppShell.mkPrefs m f size)))
       <$> ["Extra Small"; "Small"; "Medium"; "Large"; "Extra Large"]
       = ["12px"; "14px"; "16px"; "18px"; "20px"])
  ∧ (∀ status,
       (PreferencesModal.handleSave (Throws status) st shell).1.2 = shell).
Proof.
  split_and!; [|done|done].
  intros id name Hin. simpl.
  repeat (apply elem_of_cons in Hin as [Hin|Hin]; [by simplify_eq|]).
  by apply elem_of_nil in Hin.
Qed.

(** ** IntegrationsSettings: editing and saving *)

Lemma get_insert {A} (o : gmap string A) k v : JS.get (<[k := v]> o) k = JS.own v.
Proof. unfold JS.get. by rewrite lookup_insert_eq. Qed.

Lemma get_insert_ne {A} (o : gmap string A) k k' v :
  k' ≠ k → JS.get (<[k := v]> o) k' = JS.get o k'.
Proof. intros Hne. unfold JS.get. by rewrite lookup_insert_ne. Qed.

Lemma get_own {A} (o : gmap string A) k v : o !! k = Some v → JS.get o k = JS.own v.
Proof. intros Hk. unfold JS.get. by rewrite Hk. Qed.

Lemma get_inherited {A} (o : gmap string A) k :
  o !! k = None → k ∈ JS.objectPrototype → JS.get o k = JS.inherited.
Proof. intros Hk Hin. unfold JS.get. by rewrite Hk, bool_decide_eq_true_2. Qed.

Lemma get_undefined {A} (o : gmap string A) k :
  o !! k = None → k ∉ JS.objectPrototype → JS.get o k = JS.undefined.
Proof. intros Hk Hout. unfold JS.get. by rewrite Hk, bool_decide_eq_false_2. Qed.

(** X18.  Editing a credential field and saving.  After
    [handleConfigChange] the field shows the typed value, and every other
    field shows what it showed before: the fields of the other servers
    always, and a field of the edited server when that server had stored
    values, or when neither its name nor the name of the field's variable
    is the name of a member of Object.prototype.  (For a server without
    stored values the edit creates its configuration object, in which a
    variable with such a name finds the inherited member.)  [handleSave]
    for that server then makes one request that carries the typed value
    under its variable, and for every other variable of the server what
    was stored before; it changes neither the stored configurations nor
    the visibility of any field. *)
Theorem edit_then_save (serverName key value : string)
    (resp : Awaited unit) (st : IntegrationsSettings.State) :
  let edited := IntegrationsSettings.handleConfigChange serverName key value st in
  let (saved, requests) := IntegrationsSettings.handleSave serverName resp edited in
  IntegrationsSettings.configValue edited serverName key = JS.data value
  ∧ (∀ s k, (s, k) ≠ (serverName, key) →
       (s = serverName →
        is_Some (IntegrationsSettings.userConfigs st !! serverName)
        ∨ ((serverName ∉ JS.objectPrototype) ∧ (k ∉ JS.objectPrototype))) →
       IntegrationsSettings.configValue edited s k
       = IntegrationsSettings.configValue st s k)
  ∧ (∀ k, k ≠ key →
       IntegrationsSettings.userConfigs st !! serverName = None →
       serverName ∉ JS.objectPrototype → k ∈ JS.objectPrototype →
       IntegrationsSettings.configValue st serverName k = JS.data EmptyString
       ∧ IntegrationsSettings.configValue edited serverName k = JS.foreign [k])
  ∧ (∃ env_vars,
       requests = [PostMCPConfig serverName (JS.data env_vars) None]
       ∧ env_vars !! key = Some value
       ∧ ∀ k, k ≠ key →
           env_vars !! k
           = IntegrationsSettings.userConfigs st !! serverName ≫= (.!! k))
  ∧ IntegrationsSettings.userConfigs saved = IntegrationsSettings.userConfigs edited
  ∧ IntegrationsSettings.visibleFields saved = IntegrationsSettings.visibleFields st
  ∧ IntegrationsSettings.saving saved = None.
Proof.
  simpl. split_and!; try done.
  - unfold IntegrationsSettings.configValue. simpl. rewrite get_insert.
    apply field_data. by rewrite lookup_insert_eq.
  - intros s k Hne Hsame. unfold IntegrationsSettings.configValue. simpl.
    destruct (decide (s = serverName)) as [->|Hs]; [|by rewrite get_insert_ne].
    rewrite get_insert. unfold JS.field, JS.get_or.
    rewrite get_insert_ne by congruence.
    destruct (Hsame eq_refl) as [[config Hconfig]|[Hserver Hk]].
    + by rewrite (get_own _ _ _ Hconfig).
    + destruct (IntegrationsSettings.userConfigs st !! serverName) as [config|] eqn:Hc.
      { by rewrite (get_own _ _ _ Hc). }
      rewrite (get_undefined _ _ Hc Hserver). simpl.
      by rewrite get_undefined by (done || apply lookup_empty).
  - intros k Hk Hnone Hserver Hproto. unfold IntegrationsSettings.configValue. simpl.
    rewrite get_insert. unfold JS.field, JS.get_or.
    rewrite get_insert_ne by done. rewrite (get_undefined _ _ Hnone Hserver). simpl.
    by rewrite get_inherited by (done || apply lookup_empty).
  - unfold JS.get_or. rewrite get_insert. eexists. split; [done|]. split.
    + by rewrite lookup_insert_eq.
    + intros k Hk. rewrite lookup_insert_ne by done.
      unfold JS.get.
      destruct (IntegrationsSettings.userConfigs st !! serverName); [done|].
      by case_bool_decide.
Qed.

(** ** IntegrationsSettings: one eye button for each field *)

Lemma fieldId_inj s1 e1 s2 e2 :
  colonFree s1 = true → colonFree s2 = true →
  IntegrationsSettings.fieldId s1 e1 = IntegrationsSettings.fieldId s2 e2 →
  s1 = s2 ∧ e1 = e2.
Proof.
  unfold IntegrationsSettings.fieldId.
  revert s2. induction s1 as [|c1 s1 IH]; intros [|c2 s2]; simpl.
  - intros _ _ Heq. split; [done|]. by injection Heq.
  - intros _ Hc Heq. injection Heq as <- _.
    by rewrite bool_decide_eq_true_2 in Hc.
  - intros Hc _ Heq. injection Heq as Hc1 _.
    by rewrite bool_decide_eq_true_2 in Hc.
  - intros [_ H1]%andb_prop [_ H2]%andb_prop Heq.
    injection Heq as -> Heq. destruct (IH s2 H1 H2 Heq) as [-> ->]. done.
Qed.

(** X19.  When server names contain no colon, the eye button of a field
    switches that field only: every other field keeps its input type.  (The
    set of visible fields is keyed by server name, colon, variable name,
    and two different fields can share a key only when a server name
    contains a colon.) *)
Theorem toggle_changes_one_field
    (s1 e1 s2 e2 : string) (st : IntegrationsSettings.State) :
  colonFree s1 = true → colonFree s2 = true →
  (s1, e1) ≠ (s2, e2) →
  IntegrationsSettings.renderField
    (IntegrationsSettings.toggleVisibility s1 e1 st) s2 e2
  = IntegrationsSettings.renderField st s2 e2.
Proof.
  intros H1 H2 Hne.
  assert (IntegrationsSettings.fieldId s2 e2 ≠ IntegrationsSettings.fieldId s1 e1)
    as Hid.
  { intros Heq. destruct (fieldId_inj s2 e2 s1 e1 H2 H1 Heq) as [-> ->]. done. }
  unfold IntegrationsSettings.renderField, IntegrationsSettings.configValue. simpl.
  f_equal.
  assert (bool_decide
            (IntegrationsSettings.fieldId s2 e2
             ∈ (if bool_decide (IntegrationsSettings.fieldId s1 e1
                                ∈ IntegrationsSettings.visibleFields st)
                then IntegrationsSettings.visibleFields st
                     ∖ {[IntegrationsSettings.fieldId s1 e1]}
                else IntegrationsSettings.visibleFields st
                     ∪ {[IntegrationsSettings.fieldId s1 e1]}))
          = bool_decide (IntegrationsSettings.fieldId s2 e2
                         ∈ IntegrationsSettings.visibleFields st)) as ->; [|done].
  apply bool_decide_ext.
  destruct (bool_decide (IntegrationsSettings.fieldId s1 e1
                         ∈ IntegrationsSettings.visibleFields st)).
  - rewrite elem_of_difference, elem_of_singleton. tauto.
  - rewrite elem_of_union, elem_of_singleton. tauto.
Qed.

Lemma toggle_changes_one_field_witness :
  let loaded :=
    IntegrationsSettings.fetchData
      (Resolves ([github; MCPServerInfo.mk "azure" ["AZURE_PAT"] None], savedConfigs))
      IntegrationsSettings.initial in
  (colonFree "github" = true ∧ colonFree "azure" = true
   ∧ ("github", "GITHUB_TOKEN") ≠ ("azure", "AZURE_PAT"))
  ∧ IntegrationsSettings.fieldType
      (IntegrationsSettings.renderField
         (IntegrationsSettings.toggleVisibility "github" "GITHUB_TOKEN" loaded)
         "azure" "AZURE_PAT")
    = IntegrationsSettings.password.
Proof.
  intros loaded. split; [by split_and!|].
  rewrite (toggle_changes_one_field "github" "GITHUB_TOKEN" "azure" "AZURE_PAT" loaded
             eq_refl eq_refl ltac:(done)).
  reflexivity.
Defined.

(** ** AuthPrompt: the OAuth popup *)

Lemma step_keeps_success p e st :
  AuthPrompt.isSuccess (OAuthPopup.prompt st) = true →
  AuthPrompt.isSuccess (OAuthPopup.prompt (OAuthPopup.step p e st)) = true.
Proof.
  intros Hs. destruct e as [|origin data| |value|resp]; simpl; try done.
  - destruct (OAuthPopup.listeners st); [done|]. by case_bool_decide.
  - unfold AuthPrompt.handleSubmit.
    destruct (negb _); [done|]. by destruct resp.
Qed.

(** X20.  Once the challenge is marked resolved it stays resolved: no
    click, window message, closed popup, keystroke or submit (whatever its
    outcome) clears the success flag, and the success view is shown from
    then on.  While a listener is registered, a window message with data
    [oauth-success] marks the challenge resolved whatever its origin, and
    removes the listeners; without a listener, in particular once the popup
    opened by a click was found closed, such a message is ignored. *)
Theorem oauth_success_is_final
    (p : AuthPrompt.Props) (events : list OAuthPopup.Event) (st : OAuthPopup.State) :
  (AuthPrompt.isSuccess (OAuthPopup.prompt st) = true →
     AuthPrompt.isSuccess (OAuthPopup.prompt (OAuthPopup.run p events st)) = true
     ∧ AuthPrompt.render p (OAuthPopup.prompt (OAuthPopup.run p events st))
       = AuthPrompt.SuccessView (AuthPrompt.serverName p))
  ∧ (∀ origin,
       OAuthPopup.step p (OAuthPopup.WindowMessage origin "oauth-success")
         (OAuthPopup.step p OAuthPopup.Click st)
       = OAuthPopup.mkState (OAuthPopup.succeed (OAuthPopup.prompt st)) 0)
  ∧ (OAuthPopup.listeners st = 0 →
     ∀ origin data,
       OAuthPopup.step p (OAuthPopup.WindowMessage origin data) st = st
       ∧ OAuthPopup.run p
           [OAuthPopup.Click; OAuthPopup.PopupClosed;
            OAuthPopup.WindowMessage origin data] st
         = st).
Proof.
  split_and!; [|done|].
  2:{ intros Hnone origin data. unfold OAuthPopup.run. simpl.
      rewrite Hnone. by destruct st; simplify_eq/=. }
  intros Hs.
  assert (AuthPrompt.isSuccess (OAuthPopup.prompt (OAuthPopup.run p events st)) = true)
    as Hfinal.
  { unfold OAuthPopup.run. revert st Hs.
    induction events as [|e events IH]; intros st Hs; [done|].
    simpl. apply IH. by apply step_keeps_success. }
  split; [done|]. unfold AuthPrompt.render. by rewrite Hfinal.
Qed.

(** ** ThemeToggle *)

Lemma clicks_invariant n isDark b :
  let (dark, b') := ThemeToggle.clicks n isDark b in
  ThemeToggle.darkClass b' = dark
  ∧ ThemeToggle.localStorage b' !! "theme" = Some (if dark then "dark" else "light")
  ∧ ∀ k, k ≠ "theme" →
      ThemeToggle.localStorage b' !! k = ThemeToggle.localStorage b !! k.
Proof.
  revert isDark b. induction n as [|n IH]; intros isDark b; simpl.
  - destruct isDark; simpl; split_and!; try done;
      try (by rewrite lookup_insert_eq); intros k Hk; by rewrite lookup_insert_ne.
  - specialize (IH (negb isDark) (ThemeToggle.effect isDark b)).
    destruct (ThemeToggle.clicks n (negb isDark) (ThemeToggle.effect isDark b))
      as [dark b'].
    destruct IH as (Hclass & Htheme & Hother). split_and!; try done.
    intros k Hk. rewrite Hother by done.
    destruct isDark; simpl; by rewrite lookup_insert_ne.
Qed.

(** X21.  The theme is kept consistently.  After the component is mounted
    and the button clicked any number of times, the document has the class
    [dark] exactly when the component is in dark mode, local storage holds
    [dark] or [light] accordingly under [theme], and no other key of local
    storage has changed.  A component mounted later starts in the same
    mode, also in a document that does not have the class yet, and one
    click switches the mode.  Logging out of the application does not
    touch the stored theme. *)
Theorem theme_is_remembered (n : nat) (b : ThemeToggle.Browser) :
  let (dark, b') := ThemeToggle.mountAndClick n b in
  ThemeToggle.darkClass b' = dark
  ∧ ThemeToggle.localStorage b' !! "theme" = Some (if dark then "dark" else "light")
  ∧ (∀ k, k ≠ "theme" →
       ThemeToggle.localStorage b' !! k = ThemeToggle.localStorage b !! k)
  ∧ ThemeToggle.initialIsDark b' = dark
  ∧ ThemeToggle.initialIsDark (ThemeToggle.mkBrowser false (ThemeToggle.localStorage b'))
    = dark
  ∧ (ThemeToggle.mountAndClick 1 b').1 = negb dark
  ∧ (∀ a, App.localStorage a = ThemeToggle.localStorage b' →
       ThemeToggle.initialIsDark
         (ThemeToggle.mkBrowser false (App.localStorage (App.handleLogout a)))
       = dark).
Proof.
  unfold ThemeToggle.mountAndClick.
  pose proof (clicks_invariant n (ThemeToggle.initialIsDark b) b) as Hinv.
  destruct (ThemeToggle.clicks n (ThemeToggle.initialIsDark b) b) as [dark b'].
  destruct Hinv as (Hclass & Htheme & Hother).
  assert (ThemeToggle.initialIsDark b' = dark) as Hinit.
  { unfold ThemeToggle.initialIsDark. rewrite Hclass, Htheme.
    by destruct dark. }
  split_and!; try done.
  - unfold ThemeToggle.initialIsDark. simpl. rewrite Htheme. by destruct dark.
  - simpl. by rewrite Hinit.
  - intros a Ha. unfold ThemeToggle.initialIsDark. simpl.
    rewrite !lookup_delete_ne, Ha, Htheme by done. by destruct dark.
Qed.

(** ** PreferencesModal: navigation *)

(** X22.  Navigation in the settings modal.  Opening the modal always
    lands on the general page, whether the data could be loaded or not.
    Every entry of the navigation list leads to a page: the general
    entry to the general page, a server entry to the tool page of the
    first server with that name.  The tool page is given that server's
    stored configuration and context; when there is none it is given the
    empty configuration and the empty context, unless the server is named
    like a member of Object.prototype, when it is given that member
    instead.  The "Server not found" page appears only for an id that is
    not in the list.  A server that is itself named [general] cannot be
    opened: its entry shows the general page. *)
Theorem settings_navigation
    (resp : Awaited (list MCPServerInfo.t * gmap string (gmap string string)
                     * gmap string string))
    (prefs : AppShell.UserPreferences) (st : PreferencesModal.State) :
  let opened := PreferencesModal.onOpen resp st in
  let show id := PreferencesModal.page prefs (PreferencesModal.setActivePage id opened) in
  PreferencesModal.activePage opened = "general"
  ∧ PreferencesModal.loading opened = false
  ∧ (∃ m f s, PreferencesModal.page prefs opened = PreferencesModal.GeneralPage m f s
              ∧ show "general" = PreferencesModal.GeneralPage m f s)
  ∧ (∀ id, id ∈ PreferencesModal.navItems opened → id ≠ "general" →
       ∃ i server configs toolContext,
         show id = PreferencesModal.ToolPage (ToolPage.mkProps server configs toolContext)
         ∧ MCPServerInfo.name server = id
         ∧ PreferencesModal.servers opened !! i = Some server
         ∧ (∀ j other, PreferencesModal.servers opened !! j = Some other → j < i →
              MCPServerInfo.name other ≠ id)
         ∧ (∀ config, PreferencesModal.userConfigs opened !! id = Some config →
              configs = JS.data config)
         ∧ (∀ context, PreferencesModal.toolContexts opened !! id = Some context →
              toolContext = JS.data context)
         ∧ (PreferencesModal.userConfigs opened !! id = None →
              configs = if bool_decide (id ∈ JS.objectPrototype)
                        then JS.foreign [id] else JS.data ∅)
         ∧ (PreferencesModal.toolContexts opened !! id = None →
              toolContext = if bool_decide (id ∈ JS.objectPrototype)
                            then JS.foreign [id] else JS.data EmptyString))
  ∧ (∀ id, id ∉ PreferencesModal.navItems opened →
       show id = PreferencesModal.ServerNotFound).
Proof.
  assert (PreferencesModal.activePage (PreferencesModal.onOpen resp st) = "general"
          ∧ PreferencesModal.loading (PreferencesModal.onOpen resp st) = false)
    as [Hpage Hloading] by (by destruct resp as [[[??]?]|?]).
  cbv zeta. split; [done|]. split; [done|].
  unfold PreferencesModal.page. cbn [PreferencesModal.setActivePage
    PreferencesModal.loading PreferencesModal.activePage PreferencesModal.servers
    PreferencesModal.userConfigs PreferencesModal.toolContexts].
  rewrite Hloading, Hpage. split_and!.
  - by eexists _, _, _.
  - intros id [?|Hin]%elem_of_cons Hne; [done|].
    rewrite bool_decide_eq_false_2 by done.
    apply list_elem_of_fmap in Hin as (server0 & -> & Hin).
    destruct (list_find_elem_of (λ s, MCPServerInfo.name s = MCPServerInfo.name server0)
                (PreferencesModal.servers (PreferencesModal.onOpen resp st)) server0)
      as [[i server] Hfind]; [done|done|].
    rewrite Hfind.
    apply list_find_Some in Hfind as (Hi & Hname & Hfirst).
    eexists i, server, _, _. rewrite Hname. split_and!; try done.
    + intros config Hconfig. unfold JS.get_or. by rewrite (get_own _ _ _ Hconfig).
    + intros context Hcontext. unfold JS.get_or. rewrite (get_own _ _ _ Hcontext).
      by destruct context.
    + intros Hnone. unfold JS.get_or, JS.get. rewrite Hnone. by case_bool_decide.
    + intros Hnone. unfold JS.get_or, JS.get. rewrite Hnone. by case_bool_decide.
  - intros id Hnot.
    apply not_elem_of_cons in Hnot as [Hne Hnot].
    rewrite bool_decide_eq_false_2 by done.
    destruct (list_find _ _) as [[i server]|] eqn:Hfind; [|done].
    apply list_find_Some in Hfind as (Hi & Hname & _).
    exfalso. apply Hnot. apply list_elem_of_fmap. exists server.
    split; [done|]. by eapply list_elem_of_lookup_2.
Qed.

(** ** ChatArea: the text of a data line *)

Lemma lead_intro b w : JS.isSpace (String b w) = true → lead b = true.
Proof.
  intros Hw%isSpace_elem%list_elem_of_In. apply existsb_exists.
  exists (String b w). split; [done|apply Ascii.eqb_refl].
Qed.

Lemma allSpace_lead b s : JS.allSpace (String b s) = true → lead b = true.
Proof.
  cbn [JS.allSpace].
  destruct (JS.isSpace (String b EmptyString)) eqn:H1; [eauto using lead_intro|].
  destruct s as [|c2 s]; [done|].
  destruct (JS.isSpace (String b (String c2 EmptyString))) eqn:H2; [eauto using lead_intro|].
  destruct s as [|c3 s]; [done|].
  destruct (JS.isSpace (String b (String c2 (String c3 EmptyString)))) eqn:H3;
    [eauto using lead_intro|done].
Qed.

Ltac whitespace_cases H :=
  apply isSpace_elem in H; unfold JS.whitespace in H; simpl in H;
  repeat (apply elem_of_cons in H as [H|H]; [simplify_eq|]);
  try (by apply elem_of_nil in H).

Lemma lead_second c1 b : lead b = true → JS.isSpace (String c1 (String b EmptyString)) = false.
Proof.
  intros Hb. apply not_true_is_false. intros H. whitespace_cases H.
  all: by vm_compute in Hb.
Qed.

Lemma lead_middle c1 b c3 :
  lead b = true → JS.isSpace (String c1 (String b (String c3 EmptyString))) = false.
Proof.
  intros Hb. apply not_true_is_false. intros H. whitespace_cases H.
  all: by vm_compute in Hb.
Qed.

Lemma lead_third c1 c2 b :
  lead b = true → JS.isSpace (String c1 (String c2 (String b EmptyString))) = false.
Proof.
  intros Hb. apply not_true_is_false. intros H. whitespace_cases H.
  all: by vm_compute in Hb.
Qed.

Lemma allSpace_app ws s : JS.allSpace ws = true → JS.allSpace (ws +:+ s) = JS.allSpace s.
Proof.
  induction ws as [|c1 IH0|c1 c2 IH1 IH0|c1 c2 c3 ws IH2 IH1 IH0] using string_ind3;
    [done|..]; rewrite ?string_app_cons, ?string_app_empty_l in *;
    cbn [JS.allSpace].
  - by destruct (JS.isSpace (String c1 EmptyString)).
  - destruct (JS.isSpace (String c1 EmptyString)); [exact IH1|].
    by destruct (JS.isSpace (String c1 (String c2 EmptyString))).
  - destruct (JS.isSpace (String c1 EmptyString)); [exact IH2|].
    destruct (JS.isSpace (String c1 (String c2 EmptyString))); [exact IH1|].
    by destruct (JS.isSpace (String c1 (String c2 (String c3 EmptyString)))).
Qed.

Lemma trimStart_app_blank ws s :
  JS.allSpace ws = true → JS.trimStart (ws +:+ s) = JS.trimStart s.
Proof.
  induction ws as [|c1 IH0|c1 c2 IH1 IH0|c1 c2 c3 ws IH2 IH1 IH0] using string_ind3;
    [done|..]; rewrite ?string_app_cons, ?string_app_empty_l in *;
    cbn [JS.allSpace JS.trimStart].
  - by destruct (JS.isSpace (String c1 EmptyString)).
  - destruct (JS.isSpace (String c1 EmptyString)); [exact IH1|].
    by destruct (JS.isSpace (String c1 (String c2 EmptyString))).
  - destruct (JS.isSpace (String c1 EmptyString)); [exact IH2|].
    destruct (JS.isSpace (String c1 (String c2 EmptyString))); [exact IH1|].
    by destruct (JS.isSpace (String c1 (String c2 (String c3 EmptyString)))).
Qed.

Lemma trimStart_allSpace s : JS.allSpace s = true → JS.trimStart s = EmptyString.
Proof.
  intros Hs. rewrite <- (string_app_empty_r s). by rewrite trimStart_app_blank.
Qed.

(** No white space character straddles the boundary between a string and
    white space put after it. *)
Lemma allSpace_app_r s ws : JS.allSpace ws = true → JS.allSpace (s +:+ ws) = JS.allSpace s.
Proof.
  intros Hws.
  induction s as [|c1 IH0|c1 c2 IH1 IH0|c1 c2 c3 s IH2 IH1 IH0] using string_ind3;
    [done|..]; rewrite ?string_app_cons, ?string_app_empty_l in *.
  - destruct ws as [|b ws]; [done|].
    pose proof (allSpace_lead _ _ Hws) as Hb. cbn [JS.allSpace] in *.
    destruct (JS.isSpace (String c1 EmptyString)); [exact Hws|].
    rewrite lead_second by done. destruct ws; [done|]. by rewrite lead_middle.
  - cbn [JS.allSpace] in *.
    destruct (JS.isSpace (String c1 EmptyString)); [exact IH1|].
    destruct (JS.isSpace (String c1 (String c2 EmptyString))); [exact Hws|].
    destruct ws as [|b ws]; [done|].
    by rewrite (lead_third _ _ _ (allSpace_lead _ _ Hws)).
  - cbn [JS.allSpace] in *.
    destruct (JS.isSpace (String c1 EmptyString)); [exact IH2|].
    destruct (JS.isSpace (String c1 (String c2 EmptyString))); [exact IH1|].
    by destruct (JS.isSpace (String c1 (String c2 (String c3 EmptyString)))).
Qed.

Lemma trimStart_app s ws :
  JS.allSpace ws = true →
  JS.trimStart (s +:+ ws) = if JS.allSpace s then EmptyString else JS.trimStart s +:+ ws.
Proof.
  intros Hws.
  induction s as [|c1 IH0|c1 c2 IH1 IH0|c1 c2 c3 s IH2 IH1 IH0] using string_ind3;
    rewrite ?string_app_cons, ?string_app_empty_l in *.
  - by apply trimStart_allSpace.
  - destruct ws as [|b ws].
    { cbn [JS.trimStart JS.allSpace]. by destruct (JS.isSpace _). }
    pose proof (allSpace_lead _ _ Hws) as Hb. cbn [JS.trimStart JS.allSpace] in *.
    destruct (JS.isSpace (String c1 EmptyString)); [exact IH0|].
    rewrite lead_second by done. destruct ws; [done|]. by rewrite lead_middle.
  - cbn [JS.trimStart JS.allSpace] in *.
    destruct (JS.isSpace (String c1 EmptyString)); [exact IH1|].
    destruct (JS.isSpace (String c1 (String c2 EmptyString))); [exact IH0|].
    destruct ws as [|b ws]; [by rewrite !string_app_cons|].
    by rewrite (lead_third _ _ _ (allSpace_lead _ _ Hws)).
  - cbn [JS.trimStart JS.allSpace] in *.
    destruct (JS.isSpace (String c1 EmptyString)); [exact IH2|].
    destruct (JS.isSpace (String c1 (String c2 EmptyString))); [exact IH1|].
    by destruct (JS.isSpace (String c1 (String c2 (String c3 EmptyString)))).
Qed.

Lemma trimEnd_app_blank s ws : JS.allSpace ws = true → JS.trimEnd (s +:+ ws) = JS.trimEnd s.
Proof.
  intros Hws. induction s as [|c s IH].
  - rewrite string_app_empty_l. by apply trimEnd_empty.
  - rewrite string_app_cons. cbn [JS.trimEnd].
    rewrite <- string_app_cons, allSpace_app_r by done. by rewrite IH.
Qed.

Lemma trim_app_blank_l ws s : blank ws = true → JS.trim (ws +:+ s) = JS.trim s.
Proof. intros Hws. unfold JS.trim. by rewrite trimStart_app_blank. Qed.

Lemma trim_app_blank_r s ws : blank ws = true → JS.trim (s +:+ ws) = JS.trim s.
Proof.
  intros Hws. unfold JS.trim. rewrite trimStart_app by done.
  destruct (JS.allSpace s) eqn:Hs.
  - by rewrite trimStart_allSpace.
  - by apply trimEnd_app_blank.
Qed.

(** X23.  White space around the payload of a data line is ignored, in
    particular the carriage return that a CRLF line ending leaves at the
    end of the line, and also white space outside ASCII such as a no-break
    space: the line is classified as the line without it. *)
Theorem payload_whitespace_ignored
    (JSON_parse : string → option ChatArea.SSEEvent) (before payload after : string) :
  blank before = true → blank after = true →
  ChatArea.classify JSON_parse ("data: " +:+ before +:+ payload +:+ after)
  = ChatArea.classify JSON_parse ("data: " +:+ payload).
Proof.
  intros Hb Ha. rewrite !classify_data.
  by rewrite trim_app_blank_l, trim_app_blank_r.
Qed.

Lemma payload_whitespace_ignored_witness :
  let cr := String (Ascii.ascii_of_nat 13) EmptyString in
  (blank (" " +:+ nbsp) = true ∧ blank cr = true)
  ∧ ChatArea.classify sample_parse ("data: " +:+ (" " +:+ nbsp) +:+ "[DONE]" +:+ cr)
    = ChatArea.Done.
Proof.
  intros cr. split; [done|].
  rewrite (payload_whitespace_ignored sample_parse (" " +:+ nbsp) "[DONE]" cr
             eq_refl eq_refl).
  reflexivity.
Defined.

(** ** ChatArea: a frame cut by a chunk boundary *)

Lemma split_go_oneLine cur s :
  oneLine s = true → JS.split_go JS.newline cur s = [String.rev_app cur s].
Proof.
  revert cur. induction s as [|c s IH]; intros cur; simpl; [done|].
  intros [Hc Hs]%andb_prop. apply negb_true_iff, bool_decide_eq_false in Hc.
  rewrite decide_False by done. by rewrite IH.
Qed.

Lemma split_oneLine s : oneLine s = true → JS.split JS.newline s = [s].
Proof. intros Hs. unfold JS.split. by rewrite split_go_oneLine. Qed.

Lemma split_go_app cur a b :
  JS.split_go JS.newline cur (a +:+ String JS.newline b)
  = JS.split_go JS.newline cur a ++ JS.split_go JS.newline EmptyString b.
Proof.
  revert cur. induction a as [|c a IH]; intros cur.
  - change (EmptyString +:+ String JS.newline b) with (String JS.newline b).
    done.
  - rewrite string_app_cons. simpl. destruct (decide (c = JS.newline)); by rewrite IH.
Qed.

Lemma lines_app JSON_parse a b :
  ChatArea.lines JSON_parse (a +:+ String JS.newline b)
  = ChatArea.lines JSON_parse a ++ ChatArea.lines JSON_parse b.
Proof. unfold ChatArea.lines, JS.split. by rewrite split_go_app, fmap_app. Qed.

Lemma oneLine_app s t : oneLine s = true → oneLine t = true → oneLine (s +:+ t) = true.
Proof.
  intros Hs Ht. induction s as [|c s IH]; [done|].
  rewrite string_app_cons. simpl in *. apply andb_prop in Hs as [-> ?]. auto.
Qed.

Lemma forLines_snoc_unparsable cid ls L :
  ChatArea.forLines cid (ls ++ [ChatArea.Unparsable]) L = ChatArea.forLines cid ls L.
Proof.
  rewrite <- (forLines_significant cid (ls ++ _)), filter_app.
  rewrite (filter_cons_False _ ChatArea.Unparsable) by (simpl; auto).
  rewrite filter_nil, app_nil_r. apply forLines_significant.
Qed.

(** X24.  A data frame that a chunk boundary cuts in two is never put
    together again.  Let one chunk end with the first part of a frame,
    after any complete lines, and the next chunk begin with the rest of
    it, followed by a line break and anything else.  The client parses the
    first part on its own and takes the second part for a line without
    data; when the first part does not parse, the turn goes on exactly as
    if the frame had not been sent, whereas the same text in one chunk
    contains the frame. *)
Theorem split_frame_is_lost
    (JSON_parse : string → option ChatArea.SSEEvent)
    (p : ChatArea.Props) (st : ChatArea.State) (fin : ChatArea.ReadEnd)
    (complete first second rest : string) (earlier later : list string) :
  oneLine first = true → oneLine second = true →
  JS.startsWith "data: " second = false →
  JSON_parse (JS.trim first) = None →
  JS.trim first ≠ "[DONE]" →
  let nl s := String JS.newline s in
  let chunk1 := complete +:+ nl ("data: " +:+ first) in
  let chunk2 := second +:+ nl rest in
  ChatArea.lines JSON_parse chunk1
    = ChatArea.lines JSON_parse complete ++ [ChatArea.Unparsable]
  ∧ ChatArea.lines JSON_parse chunk2
    = ChatArea.NotData :: ChatArea.lines JSON_parse rest
  ∧ ChatArea.lines JSON_parse
      (complete +:+ nl (("data: " +:+ first +:+ second) +:+ nl rest))
    = ChatArea.lines JSON_parse complete
      ++ [ChatArea.classify JSON_parse ("data: " +:+ first +:+ second)]
      ++ ChatArea.lines JSON_parse rest
  ∧ ChatArea.handleSendWire JSON_parse p
      (ChatArea.response_stream (earlier ++ [chunk1; chunk2] ++ later) fin) st
    = ChatArea.handleSendWire JSON_parse p
        (ChatArea.response_stream (earlier ++ [complete; rest] ++ later) fin) st.
Proof.
  intros H1 H2 Hsecond Hparse Hdone nl chunk1 chunk2.
  assert (ChatArea.lines JSON_parse ("data: " +:+ first) = [ChatArea.Unparsable])
    as Hfirst.
  { unfold ChatArea.lines. rewrite split_oneLine by (by apply (oneLine_app "data: ")).
    simpl. rewrite classify_data, Hparse. by rewrite bool_decide_eq_false_2. }
  assert (ChatArea.lines JSON_parse second = [ChatArea.NotData]) as Hrest.
  { unfold ChatArea.lines. rewrite split_oneLine by done. simpl.
    unfold ChatArea.classify. by rewrite Hsecond. }
  assert (ChatArea.lines JSON_parse chunk1
          = ChatArea.lines JSON_parse complete ++ [ChatArea.Unparsable]) as Hchunk1.
  { unfold chunk1, nl. by rewrite lines_app, Hfirst. }
  assert (ChatArea.lines JSON_parse chunk2
          = ChatArea.NotData :: ChatArea.lines JSON_parse rest) as Hchunk2.
  { unfold chunk2, nl. by rewrite lines_app, Hrest. }
  split_and!; try done.
  - unfold nl. rewrite !lines_app. do 2 f_equal.
    unfold ChatArea.lines. rewrite split_oneLine; [done|].
    apply (oneLine_app "data: "); [done|]. by apply oneLine_app.
  - unfold ChatArea.handleSendWire, ChatArea.handleSend.
    destruct (ChatArea.conversationId p) as [cid|]; [|done].
    destruct (_ && _); [|done].
    cbn [ChatArea.mapNetwork ChatArea.tryBlock].
    rewrite !fmap_app, !whileRead_app. cbn [fmap list_fmap ChatArea.whileRead].
    rewrite Hchunk1, Hchunk2, forLines_snoc_unparsable. done.
Qed.

Lemma split_frame_is_lost_witness :
  let nl s := String JS.newline s in
  (oneLine "{" = true ∧ oneLine "}" = true
   ∧ JS.startsWith "data: " "}" = false
   ∧ sample_parse (JS.trim "{") = None
   ∧ JS.trim "{" ≠ "[DONE]")
  ∧ ChatArea.lines sample_parse ("data: 4" +:+ nl ("data: " +:+ "{"))
    = [ChatArea.Parsed ChatArea.ev_other; ChatArea.Unparsable]
  ∧ ChatArea.lines sample_parse ("}" +:+ nl "data: [DONE]")
    = [ChatArea.NotData; ChatArea.Done].
Proof.
  intros nl. split; [by split_and!|].
  pose proof (split_frame_is_lost sample_parse props0 chatHi ChatArea.end_done
                "data: 4" "{" "}" "data: [DONE]" [] []
                eq_refl eq_refl eq_refl eq_refl ltac:(done))
    as (H1 & H2 & _).
  split; [exact H1|exact H2].
Defined.

(** ** App and ChatArea: the submit button *)

(** X25.  The submit button can be trusted.  The chat area exists only
    while a conversation with a non-empty id is open, and it gets that id
    and the session token; so whenever the submit button is enabled, a send
    passes the guard and posts the input to the open conversation with the
    session token. *)
Theorem enabled_submit_sends
    (app : AppShell.State) (id token : string) (ms : list Message.t)
    (st : ChatArea.State) (net : ChatArea.Network (list ChatArea.Line))
    (spinner : bool) :
  AppShell.main app = AppShell.Chat id token ms →
  ChatInput.button (ChatInput.render st) = ChatInput.SubmitButton false spinner →
  App.currentConversationId (AppShell.app app) = Some id
  ∧ JS.truthy id = true
  ∧ ms = App.messages (AppShell.app app)
  ∧ ChatArea.Fetch (PostChat token id (ChatArea.input st))
      ∈ (ChatArea.handleSend (ChatArea.mkProps (Some id) token) net st).2.
Proof.
  unfold AppShell.main, ChatInput.render. simpl.
  destruct (App.currentConversationId (AppShell.app app)) as [cur|]; [|done].
  destruct (JS.truthy cur) eqn:Hcur; [|done].
  destruct (AppShell.isLoadingHistory app); [done|].
  intros [= -> <- <-].
  destruct (ChatArea.isStreaming st); [done|].
  intros [= Hdisabled _]. apply orb_false_elim in Hdisabled as [Hinput _].
  apply negb_false_iff in Hinput. rewrite truthy_trim in Hinput.
  apply negb_true_iff in Hinput.
  split_and!; try done.
  rewrite (handleSend_result _ _ _ id) by done. simpl.
  destruct (tryBlock_calls id net
              (loop0 (ChatArea.mkProps (Some id)
                        (default EmptyString (App.token (AppShell.app app)))) id st))
    as [titles ->].
  simpl. apply list_elem_of_further, list_elem_of_here.
Qed.

Lemma enabled_submit_sends_witness :
  let app :=
    AppShell.mkState
      (App.mkState (Some "jwt") "ada" [conv_2024] (Some "c3") [hello] ∅)
      false false (AppShell.mkPrefs "gpt-4o" "Inter" "Medium") in
  (AppShell.main app = AppShell.Chat "c3" "jwt" [hello]
   ∧ ChatInput.button (ChatInput.render chatHi) = ChatInput.SubmitButton false false)
  ∧ ChatArea.Fetch (PostChat "jwt" "c3" "What is 2+2?")
      ∈ (ChatArea.handleSend (ChatArea.mkProps (Some "c3") "jwt")
           ChatArea.response_bad chatHi).2.
Proof.
  intros app. split; [by split|].
  pose proof (enabled_submit_sends app "c3" "jwt" [hello] chatHi
                ChatArea.response_bad false eq_refl eq_refl) as (_ & _ & _ & H).
  exact H.
Defined.

(** ** App: an expired session *)

(** X26.  Opening the page with a stored token.  The token is installed as
    bearer token before anything is requested, and exactly two requests
    go out with it: the conversation list and the preferences.  When the
    list request is answered with 401, the user is logged out: the login
    form is shown, token and user name are removed from local storage, and
    opening the page again sends nothing.  Any other failure of the list
    request keeps the session. *)
Theorem expired_session_logs_out
    (Date_getTime : string → option Z) (storage : gmap string string)
    (token : string) (respPrefs : Awaited AppShell.UserPreferences) :
  storage !! "token" = Some token →
  JS.truthy token = true →
  let bearer := Some ("Bearer " +:+ token) in
  let expired := Session.start Date_getTime storage (Throws (Some 401%Z)) respPrefs in
  let left := App.localStorage (AppShell.app (Session.shell expired)) in
  Session.sent expired
    = [Api.mkCall bearer Api.get_conversations; Api.mkCall bearer Api.get_preferences]
  ∧ AppShell.showsLogin (Session.shell expired) = true
  ∧ left !! "token" = None ∧ left !! "userName" = None
  ∧ (∀ respList respPrefs2,
       Session.sent (Session.start Date_getTime left respList respPrefs2) = [])
  ∧ (∀ status respPrefs2, status ≠ Some 401%Z →
       let kept := Session.start Date_getTime storage (Throws status) respPrefs2 in
       AppShell.showsLogin (Session.shell kept) = false
       ∧ App.localStorage (AppShell.app (Session.shell kept)) = storage).
Proof.
  intros Hstored Htoken. simpl.
  unfold Session.start, Session.tokenEffect. simpl. rewrite Hstored, Htoken. simpl.
  unfold AppShell.showsLogin, Api.setAuthToken. rewrite Htoken.
  split_and!.
  - done.
  - by destruct respPrefs.
  - destruct respPrefs; simpl; by rewrite lookup_delete_ne, lookup_delete_eq.
  - destruct respPrefs; simpl; by rewrite lookup_delete_eq.
  - intros respList respPrefs2.
    assert (App.localStorage
              (AppShell.app (AppShell.loadPreferences respPrefs
                 (AppShell.withApp
                    (App.loadConversations Date_getTime (Throws (Some 401%Z)))
                    (AppShell.initial storage)))) !! "token" = None) as ->; [|done].
    destruct respPrefs; simpl; by rewrite lookup_delete_ne, lookup_delete_eq.
  - intros status respPrefs2 Hstatus.
    unfold App.loadConversations, AppShell.withApp.
    rewrite bool_decide_eq_false_2 by done.
    destruct respPrefs2; simpl; rewrite Hstored; simpl; by rewrite Htoken.
Qed.

Lemma expired_session_logs_out_witness :
  let storage : gmap string string := {[ "token" := "jwt-ada"; "userName" := "ada" ]} in
  (storage !! "token" = Some "jwt-ada" ∧ JS.truthy "jwt-ada" = true)
  ∧ Session.sent (Session.start sample_getTime storage (Throws (Some 401%Z)) (Throws None))
    = [Api.mkCall (Some "Bearer jwt-ada") Api.get_conversations;
       Api.mkCall (Some "Bearer jwt-ada") Api.get_preferences].
Proof.
  intros storage. split; [by split|].
  pose proof (expired_session_logs_out sample_getTime storage "jwt-ada" (Throws None)
                eq_refl eq_refl) as (H & _).
  exact H.
Defined.

(** ** The settings views: one visibility key for several fields *)





